(** * Change detection and snapshot sync of [documents/backup_system.py]

    A shallow embedding of the [BackupSystem] class: the file hasher, the
    file selector, the change detector over the in-memory digest map, the
    snapshot sync (copy, commit, push) and one backup cycle, followed by the
    properties of the design document that concern them. *)

From Stdlib Require Import ZArith List Ascii String QArith Lia.
From Stdlib.Strings Require Import Byte.
From stdpp Require Import base decidable option list gmap strings pretty sorting.
From Equations Require Import Equations.

Set Default Proof Using "Type".
Open Scope Z_scope.

(** ** MD5, as [hashlib.md5] computes it (RFC 1321)

    [hashlib] is a collaborator of the program; the digest it returns is
    spelled out here so that digests of concrete files can be evaluated. *)
Module MD5.

Definition mask32 : Z := 0xFFFFFFFF.
Definition add32 (x y : Z) : Z := Z.land (x + y) mask32.
Definition not32 (x : Z) : Z := Z.lxor x mask32.
Definition rotl32 (x : Z) (c : Z) : Z :=
  Z.land (Z.lor (Z.shiftl x c) (Z.shiftr x (32 - c))) mask32.

Definition shifts : list Z :=
  [ 7; 12; 17; 22; 7; 12; 17; 22; 7; 12; 17; 22; 7; 12; 17; 22;
    5; 9; 14; 20; 5; 9; 14; 20; 5; 9; 14; 20; 5; 9; 14; 20;
    4; 11; 16; 23; 4; 11; 16; 23; 4; 11; 16; 23; 4; 11; 16; 23;
    6; 10; 15; 21; 6; 10; 15; 21; 6; 10; 15; 21; 6; 10; 15; 21 ].

Definition sines : list Z :=
  [ 0xd76aa478; 0xe8c7b756; 0x242070db; 0xc1bdceee;
    0xf57c0faf; 0x4787c62a; 0xa8304613; 0xfd469501;
    0x698098d8; 0x8b44f7af; 0xffff5bb1; 0x895cd7be;
    0x6b901122; 0xfd987193; 0xa679438e; 0x49b40821;
    0xf61e2562; 0xc040b340; 0x265e5a51; 0xe9b6c7aa;
    0xd62f105d; 0x02441453; 0xd8a1e681; 0xe7d3fbc8;
    0x21e1cde6; 0xc33707d6; 0xf4d50d87; 0x455a14ed;
    0xa9e3e905; 0xfcefa3f8; 0x676f02d9; 0x8d2a4c8a;
    0xfffa3942; 0x8771f681; 0x6d9d6122; 0xfde5380c;
    0xa4beea44; 0x4bdecfa9; 0xf6bb4b60; 0xbebfbc70;
    0x289b7ec6; 0xeaa127fa; 0xd4ef3085; 0x04881d05;
    0xd9d4d039; 0xe6db99e5; 0x1fa27cf8; 0xc4ac5665;
    0xf4292244; 0x432aff97; 0xab9423a7; 0xfc93a039;
    0x655b59c3; 0x8f0ccc92; 0xffeff47d; 0x85845dd1;
    0x6fa87e4f; 0xfe2ce6e0; 0xa3014314; 0x4e0811a1;
    0xf7537e82; 0xbd3af235; 0x2ad7d2bb; 0xeb86d391 ].

(** The four chaining words. *)
Record state := State { sa : Z; sb : Z; sc : Z; sd : Z }.

Definition init : state :=
  State 0x67452301 0xefcdab89 0x98badcfe 0x10325476.

(** Little-endian decoding of a 32-bit word and encoding of a [w]-byte
    integer. *)
Fixpoint le_word (bs : list Z) : Z :=
  match bs with
  | [] => 0
  | b :: bs' => b + 256 * le_word bs'
  end.

Fixpoint le_bytes (w : nat) (x : Z) : list Z :=
  match w with
  | O => []
  | S w' => Z.land x 255 :: le_bytes w' (Z.shiftr x 8)
  end.

Fixpoint words (n : nat) (bs : list Z) : list Z :=
  match n with
  | O => []
  | S n' => le_word (take 4 bs) :: words n' (drop 4 bs)
  end.

Definition round (m : list Z) (st : state) (i : nat) : state :=
  let '(State a b c d) := st in
  let iz := Z.of_nat i in
  let '(f, g) :=
    if iz <? 16 then (Z.lor (Z.land b c) (Z.land (not32 b) d), iz)
    else if iz <? 32 then
      (Z.lor (Z.land d b) (Z.land (not32 d) c), (5 * iz + 1) mod 16)
    else if iz <? 48 then (Z.lxor b (Z.lxor c d), (3 * iz + 5) mod 16)
    else (Z.lxor c (Z.lor b (not32 d)), (7 * iz) mod 16) in
  let f' := add32 (add32 (add32 f a) (nth i sines 0)) (nth (Z.to_nat g) m 0) in
  State d (add32 b (rotl32 f' (nth i shifts 0))) b c.

Definition compress (st : state) (block : list Z) : state :=
  let m := words 16 block in
  let st' := foldl (round m) st (seq 0 64) in
  State (add32 (sa st) (sa st')) (add32 (sb st) (sb st'))
        (add32 (sc st) (sc st')) (add32 (sd st) (sd st')).

Fixpoint blocks (n : nat) (st : state) (bs : list Z) : state :=
  match n with
  | O => st
  | S n' => blocks n' (compress st (take 64 bs)) (drop 64 bs)
  end.

Definition pad (msg : list Z) : list Z :=
  let len := Z.of_nat (length msg) in
  let zeros := Z.to_nat ((55 - len) mod 64) in
  msg ++ 128 :: repeat 0 zeros ++ le_bytes 8 (Z.land (8 * len) (2 ^ 64 - 1)).

Definition digest (msg : list Z) : list Z :=
  let p := pad msg in
  let st := blocks (length p / 64) init p in
  le_bytes 4 (sa st) ++ le_bytes 4 (sb st) ++
  le_bytes 4 (sc st) ++ le_bytes 4 (sd st).

Definition hex_digit (x : Z) : ascii :=
  if x <? 10 then ascii_of_nat (Z.to_nat (48 + x))
  else ascii_of_nat (Z.to_nat (87 + x)).

Fixpoint hex (bs : list Z) : string :=
  match bs with
  | [] => EmptyString
  | b :: bs' => String (hex_digit (b / 16)) (String (hex_digit (b mod 16)) (hex bs'))
  end.

Definition hexdigest (msg : list byte) : string :=
  hex (digest (map (fun b => Z.of_N (Byte.to_N b)) msg)).

End MD5.

(** ** Python strings

    A [str] is kept as its UTF-8 bytes: comparing two such strings byte by
    byte orders them as Python orders them by code point.  [lower] maps the
    ASCII letters, on which it agrees with [str.lower]; other bytes are left
    as they are. *)
Module PyStr.
Open Scope string_scope.

Definition lower_char (c : ascii) : ascii :=
  let n := N_of_ascii c in
  if ((65 <=? n) && (n <=? 90))%N then ascii_of_N (n + 32) else c.

Fixpoint lower (s : string) : string :=
  match s with
  | EmptyString => EmptyString
  | String c s' => String (lower_char c) (lower s')
  end.

Definition startswith (s pre : string) : bool := String.prefix pre s.

(** [s[n:]] *)
Definition slice_from (n : nat) (s : string) : string :=
  String.substring n (String.length s - n) s.

Definition endswith (s suf : string) : bool :=
  let n := String.length s in
  let m := String.length suf in
  if (m <=? n)%nat then String.eqb (slice_from (n - m) s) suf else false.

(** [sub in s] *)
Fixpoint contains (sub s : string) : bool :=
  String.prefix sub s ||
  match s with
  | EmptyString => false
  | String _ s' => contains sub s'
  end.

(** [s.rfind(c)] for a one-character [c]: the last index, or -1. *)
Fixpoint rfind_from (i : Z) (c : ascii) (s : string) (last : Z) : Z :=
  match s with
  | EmptyString => last
  | String d s' =>
      rfind_from (i + 1) c s' (if Ascii.eqb c d then i else last)
  end.
Definition rfind (c : ascii) (s : string) : Z := rfind_from 0 c s (-1).

Fixpoint forallb_string (f : ascii -> bool) (s : string) : bool :=
  match s with
  | EmptyString => true
  | String c s' => f c && forallb_string f s'
  end.

(** [s.split(c)] *)
Fixpoint split_go (c : ascii) (cur : string) (s : string) : list string :=
  match s with
  | EmptyString => [String.rev cur]
  | String d s' =>
      if Ascii.eqb c d then String.rev cur :: split_go c EmptyString s'
      else split_go c (String d cur) s'
  end.
Definition split (c : ascii) (s : string) : list string :=
  split_go c EmptyString s.

(** [sep.join(l)] *)
Fixpoint join (sep : string) (l : list string) : string :=
  match l with
  | [] => ""
  | [x] => x
  | x :: l' => x ++ sep ++ join sep l'
  end.
End PyStr.

(** ** [os.path] and [pathlib] on POSIX *)
Module OsPath.
Open Scope string_scope.

(** [os.path.join(a, b)] *)
Definition join (a b : string) : string :=
  if PyStr.startswith b "/" then b
  else if String.eqb a "" || PyStr.endswith a "/" then a ++ b
  else a ++ "/" ++ b.

(** [os.path.splitext(p)[1]]: the text from the last dot on, unless that
    dot is before the last separator or only dots precede it in the
    file name. *)
Definition splitext_ext (p : string) : string :=
  let sepIndex := PyStr.rfind "/" p in
  let dotIndex := PyStr.rfind "." p in
  if dotIndex >? sepIndex then
    let name_head :=
      String.substring (Z.to_nat (sepIndex + 1))
                       (Z.to_nat (dotIndex - (sepIndex + 1))) p in
    if PyStr.forallb_string (Ascii.eqb ".") name_head then ""
    else PyStr.slice_from (Z.to_nat dotIndex) p
  else "".

(** A [PurePosixPath]: whether it starts at the root, and its components
    (empty and [.] components are dropped when a path is parsed).  The root
    is taken to be [/]; the root [//] that POSIX keeps for a path starting
    with exactly two slashes is not told apart from it. *)
Record path := Path { anchored : bool; parts : list string }.

Definition keep_part (c : string) : bool :=
  negb (String.eqb c "" || String.eqb c ".").

Definition parse (s : string) : path :=
  Path (PyStr.startswith s "/") (List.filter keep_part (PyStr.split "/" s)).

Definition to_string (p : path) : string :=
  if anchored p then "/" ++ PyStr.join "/" (parts p)
  else match parts p with
       | [] => "."
       | _ => PyStr.join "/" (parts p)
       end.

Definition is_absolute (p : path) : bool := anchored p.

(** [a / b] *)
Definition div (a b : path) : path :=
  if anchored b then b else Path (anchored a) (parts a ++ parts b).

Definition parent (p : path) : path :=
  Path (anchored p) (removelast (parts p)).
End OsPath.

(** ** Exceptions, the log, and the world the program acts on *)

Inductive exn :=
| OSError (msg : string)
| ValueError (msg : string)
| GitCommandError (msg : string).

Definition exn_str (e : exn) : string :=
  match e with
  | OSError m | ValueError m | GitCommandError m => m
  end.

Inductive result (A : Type) :=
| Ok (a : A)
| Raise (e : exn).
Arguments Ok {A} a.
Arguments Raise {A} e.

Inductive level := INFO | WARNING | ERROR.

(** Calls to the operating system and to the version-control backend, in
    the order the program makes them. *)
Inductive event :=
| EvExists (directory : string)
| EvWalk (directory : string)
| EvGetsize (file_path : string)
| EvOpen (file_path : string)
| EvMkdir (dir : string)
| EvCopy (src dst : string)
| EvGitAdd
| EvGitCommit (message : string)
| EvPush.

(** The configuration record of [load_config]. *)
Record config := Config {
  directories : list string;
  file_extensions : list string;
  backup_repo_path : string;
  remote_url : string;
  check_interval_minutes : Z;
  max_file_size_mb : Q;
  exclude_patterns : list string
}.

Definition default_config : config :=
  Config ["./documents"; "./projects"]%string
         [".txt"; ".py"; ".js"; ".html"; ".css"; ".md"; ".json"]%string
         "./backup_repo" "" 30 (50 # 1)
         [".git"; "__pycache__"; "*.pyc"; "node_modules"; ".env"]%string.

(** A file as [open(path, "rb")] sees it: its bytes, and possibly the
    number of the [read] call that raises. *)
Record file := File {
  f_content : list byte;
  f_read_error : option (nat * exn)
}.

(** What the file system, the clock and the version-control backend answer
    during one backup cycle. *)
Record env := Env {
  fs_exists : string -> bool;
  fs_walk : string -> list (string * list string * list string);
  fs_getsize : string -> result Z;
  fs_open : string -> result file;
  fs_cwd : string;
  fs_mkdir : string -> result unit;
  fs_copy2 : string -> string -> result (list byte);
  clock_now : string;
  git_add_result : result unit;
  git_commit_result : result unit;
  git_push_result : result unit
}.

Record commit := Commit {
  c_message : string;
  c_tree : gmap string (list byte)
}.

(** [file_hashes] is the attribute of [BackupSystem]; [mirror] is the
    working tree under [backup_repo_path], [index] what is staged there,
    [history] the local commits and [remote] the commits pushed. *)
Record world := World {
  file_hashes : gmap string string;
  log : list (level * string);
  trace : list event;
  mirror : gmap string (list byte);
  index : gmap string (list byte);
  history : list commit;
  remote : list commit
}.

(** The state after [BackupSystem.__init__]: [self.file_hashes = {}]. *)
Definition init_world : world := World ∅ [] [] ∅ ∅ [] [].

Definition set_file_hashes (h : gmap string string) (w : world) : world :=
  World h (log w) (trace w) (mirror w) (index w) (history w) (remote w).
Definition add_log (l : level) (m : string) (w : world) : world :=
  World (file_hashes w) (log w ++ [(l, m)]) (trace w) (mirror w) (index w)
        (history w) (remote w).
Definition add_event (ev : event) (w : world) : world :=
  World (file_hashes w) (log w) (trace w ++ [ev]) (mirror w) (index w)
        (history w) (remote w).
Definition set_mirror (m : gmap string (list byte)) (w : world) : world :=
  World (file_hashes w) (log w) (trace w) m (index w) (history w) (remote w).
Definition set_index (i : gmap string (list byte)) (w : world) : world :=
  World (file_hashes w) (log w) (trace w) (mirror w) i (history w) (remote w).
Definition set_history (h : list commit) (w : world) : world :=
  World (file_hashes w) (log w) (trace w) (mirror w) (index w) h (remote w).
Definition set_remote (r : list commit) (w : world) : world :=
  World (file_hashes w) (log w) (trace w) (mirror w) (index w) (history w) r.

(** ** The monad of the methods: state and exceptions *)

Definition M (A : Type) : Type := world -> result A * world.

#[global] Instance M_ret : MRet M := fun A (a : A) w => (Ok a, w).
#[global] Instance M_bind : MBind M := fun A B (f : A -> M B) (m : M A) w =>
  match m w with
  | (Ok a, w') => f a w'
  | (Raise e, w') => (Raise e, w')
  end.

Definition raise {A} (e : exn) : M A := fun w => (Raise e, w).

(** [try: body except Exception as e: handler(e)] *)
Definition try_except {A} (body : M A) (handler : exn -> M A) : M A :=
  fun w =>
    match body w with
    | (Ok a, w') => (Ok a, w')
    | (Raise e, w') => handler e w'
    end.

Definition lift_result {A} (r : result A) : M A := fun w => (r, w).
Definition modify (f : world -> world) : M unit := fun w => (Ok tt, f w).
Definition gets {A} (f : world -> A) : M A := fun w => (Ok (f w), w).

(** [for x in l: acc = body(x, acc)] *)
Fixpoint for_each {A S} (l : list A) (body : A -> S -> M S) (acc : S) : M S :=
  match l with
  | [] => mret acc
  | x :: l' => acc' ← body x acc; for_each l' body acc'
  end.

Definition logger (l : level) (m : string) : M unit := modify (add_log l m).

(** ** FileHasher *)

(** The [hashlib] object: [update] feeds bytes, and the digest is that of
    everything fed so far, in order. *)
Record hash_obj := HashObj { fed : list byte }.
Definition hashlib_md5 : hash_obj := HashObj [].
Definition hash_update (h : hash_obj) (chunk : list byte) : hash_obj :=
  HashObj (fed h ++ chunk).
Definition hash_hexdigest (h : hash_obj) : string := MD5.hexdigest (fed h).

(** An open binary file: the bytes not read yet and the number of [read]
    calls made. *)
Record handle := Handle {
  h_rest : list byte;
  h_reads : nat;
  h_error : option (nat * exn)
}.

Definition open_handle (f : file) : handle :=
  Handle (f_content f) 0 (f_read_error f).

(** [f.read(n)]: at most [n] bytes, none at the end of the file. *)
Definition handle_read (n : nat) (h : handle) : result (list byte * handle) :=
  match h_error h with
  | Some (k, e) =>
      if decide (k = h_reads h) then Raise e
      else Ok (take n (h_rest h),
               Handle (drop n (h_rest h)) (S (h_reads h)) (h_error h))
  | None =>
      Ok (take n (h_rest h),
          Handle (drop n (h_rest h)) (S (h_reads h)) (h_error h))
  end.

Definition inspect {A} (a : A) : {b : A | a = b} := exist _ a eq_refl.

Definition chunk_size : nat := 4096.

(** [for chunk in iter(lambda: f.read(4096), b""): hash_md5.update(chunk)] *)
Equations? read_chunks (f : handle) (hash_md5 : hash_obj) : result hash_obj
  by wf (length (h_rest f)) lt :=
  read_chunks f hash_md5 with inspect (handle_read chunk_size f) := {
    | exist _ (Raise e) _ => Raise e
    | exist _ (Ok ([], _)) _ => Ok hash_md5
    | exist _ (Ok (b :: chunk, f')) Hread =>
        read_chunks f' (hash_update hash_md5 (b :: chunk)) }.
Proof.
  unfold handle_read in Hread.
  assert (Hshape : take chunk_size (h_rest f) = b :: chunk
                   /\ h_rest f' = drop chunk_size (h_rest f)).
  { destruct (h_error f) as [[k e]|]; [destruct (decide (k = h_reads f))|];
      inversion Hread; subst; auto. }
  destruct Hshape as [Htake ->].
  destruct (h_rest f) as [|x rest]; [discriminate|].
  unfold chunk_size. simpl. rewrite length_drop. lia.
Qed.

(** ** The methods of [BackupSystem] *)
Section BackupSystem.
Open Scope string_scope.

Variable cfg : config.
Variable e : env.

(** *** System calls *)

Definition os_path_exists (directory : string) : M bool :=
  modify (add_event (EvExists directory));; mret (fs_exists e directory).

Definition os_walk (directory : string)
  : M (list (string * list string * list string)) :=
  modify (add_event (EvWalk directory));; mret (fs_walk e directory).

Definition os_path_getsize (file_path : string) : M Z :=
  modify (add_event (EvGetsize file_path));;
  lift_result (fs_getsize e file_path).

Definition open_rb (file_path : string) : M handle :=
  modify (add_event (EvOpen file_path));;
  f ← lift_result (fs_open e file_path);
  mret (open_handle f).

(** *** [calculate_file_hash] *)
Definition calculate_file_hash (file_path : string) : M string :=
  let hash_md5 := hashlib_md5 in
  try_except
    (f ← open_rb file_path;
     hash_md5 ← lift_result (read_chunks f hash_md5);
     mret (hash_hexdigest hash_md5))
    (fun exc =>
       logger ERROR ("Ошибка при вычислении хеша для " ++ file_path ++ ": "
                     ++ exn_str exc);;
       mret "").

(** *** [should_exclude_file] *)

(** The loop over [exclude_patterns], which returns at the first hit. *)
Fixpoint match_patterns (path_str : string) (patterns : list string) : bool :=
  match patterns with
  | [] => false
  | pattern :: rest =>
      if PyStr.startswith pattern "*." then
        if PyStr.endswith path_str (PyStr.slice_from 1 pattern) then true
        else match_patterns path_str rest
      else
        if PyStr.contains pattern path_str then true
        else match_patterns path_str rest
  end.

(** [os.path.getsize(file_path) / (1024 * 1024) > max_file_size_mb]; the
    quotient is exact for sizes below 2^53. *)
Definition size_exceeds (size : Z) : bool :=
  negb (Qle_bool (size # 1048576) (max_file_size_mb cfg)).

Definition should_exclude_file (file_path : string) : M bool :=
  let path_str := PyStr.lower file_path in
  if match_patterns path_str (exclude_patterns cfg) then mret true
  else
    too_big ← try_except
                (size ← os_path_getsize file_path;
                 mret (size_exceeds size))
                (fun _ => mret false);
    if (too_big : bool) then mret true else mret false.

(** *** [get_files_to_backup] *)

Definition is_empty_list {A} (l : list A) : bool :=
  match l with [] => true | _ => false end.

(** The body of the innermost loop, for one [file] of one [root]. *)
Definition visit_file (root file : string) (files_to_backup : list string)
  : M (list string) :=
  let file_path := OsPath.join root file in
  excluded ← should_exclude_file file_path;
  if (excluded : bool) then mret files_to_backup
  else if negb (is_empty_list (file_extensions cfg))
          && negb (bool_decide
                     (PyStr.lower (OsPath.splitext_ext file)
                      ∈ file_extensions cfg))
  then mret files_to_backup
  else mret (files_to_backup ++ [file_path])%list.

Definition visit_directory (directory : string)
  (files_to_backup : list string) : M (list string) :=
  present ← os_path_exists directory;
  if (present : bool) then
    walked ← os_walk directory;
    for_each walked
      (fun '(root, dirs, files) acc => for_each files (visit_file root) acc)
      files_to_backup
  else
    logger WARNING ("Директория не существует: " ++ directory);;
    mret files_to_backup.

Definition get_files_to_backup : M (list string) :=
  for_each (directories cfg) visit_directory [].

(** *** [check_for_changes] *)

(** The body of the loop, for one [file_path]. *)
Definition check_file (file_path : string) (changed_files : gset string)
  : M (gset string) :=
  try_except
    (current_hash ← calculate_file_hash file_path;
     if String.eqb current_hash "" then mret changed_files
     else
       hashes ← gets file_hashes;
       if bool_decide (hashes !! file_path = None)
          || negb (bool_decide (hashes !! file_path = Some current_hash))
       then
         let changed_files := {[file_path]} ∪ changed_files in
         modify (set_file_hashes (<[file_path := current_hash]> hashes));;
         mret changed_files
       else mret changed_files)
    (fun exc =>
       logger ERROR ("Ошибка при проверке файла " ++ file_path ++ ": "
                     ++ exn_str exc);;
       mret changed_files).

Definition check_for_changes : M (gset string) :=
  current_files ← get_files_to_backup;
  for_each current_files check_file ∅.

(** *** [copy_files_to_repo] *)

(** [p.relative_to(other)] *)
Definition relative_to (p other : OsPath.path) : result OsPath.path :=
  if Bool.eqb (OsPath.anchored p) (OsPath.anchored other)
     && bool_decide (OsPath.parts other `prefix_of` OsPath.parts p)
  then Ok (OsPath.Path false
             (drop (length (OsPath.parts other)) (OsPath.parts p)))
  else Raise (ValueError (OsPath.to_string p ++ " is not in the subpath of "
                          ++ OsPath.to_string other)).

Definition mkdir_parents (dir : string) : M unit :=
  modify (add_event (EvMkdir dir));; lift_result (fs_mkdir e dir).

Definition shutil_copy2 (src dst : string) : M unit :=
  modify (add_event (EvCopy src dst));;
  content ← lift_result (fs_copy2 e src dst);
  m ← gets mirror;
  modify (set_mirror (<[dst := content]> m)).

(** The body of the loop, for one [file_path]. *)
Definition copy_file (repo_path : OsPath.path) (file_path : string) (_ : unit)
  : M unit :=
  try_except
    (let source_path := OsPath.parse file_path in
     relative_path ←
       (if OsPath.is_absolute source_path
        then lift_result (relative_to source_path (OsPath.parse (fs_cwd e)))
        else mret source_path);
     let target_path := OsPath.div repo_path relative_path in
     mkdir_parents (OsPath.to_string (OsPath.parent target_path));;
     shutil_copy2 file_path (OsPath.to_string target_path);;
     logger INFO ("Скопирован файл: " ++ file_path ++ " -> "
                  ++ OsPath.to_string target_path))
    (fun exc =>
       logger ERROR ("Ошибка при копировании файла " ++ file_path ++ ": "
                     ++ exn_str exc)).

(** A Python set is walked in an order the language leaves open; the
    model walks it in the order of [elements]. *)
Definition copy_files_to_repo (changed_files : gset string) : M unit :=
  let repo_path := OsPath.parse (backup_repo_path cfg) in
  for_each (elements changed_files) (copy_file repo_path) tt.

(** *** [create_commit] *)

Definition nl : string := String (ascii_of_nat 10) "".

(** [sorted(changed_files)] *)
Definition sorted (changed_files : gset string) : list string :=
  merge_sort String.le (elements changed_files).

Definition file_line (file_path : string) : string :=
  "- " ++ file_path ++ nl.

Definition commit_message (timestamp : string) (changed_files : gset string)
  : string :=
  let commit_message :=
    "Автоматическое резервное копирование - " ++ timestamp ++ nl ++ nl in
  let commit_message :=
    commit_message ++ "Изменено файлов: " ++ pretty (size changed_files)
    ++ nl in
  if (size changed_files <=? 10)%nat then
    let commit_message := commit_message ++ nl ++ "Измененные файлы:" ++ nl in
    foldl (fun msg file_path => msg ++ file_line file_path) commit_message
          (sorted changed_files)
  else commit_message.

Definition git_add_all : M unit :=
  modify (add_event EvGitAdd);;
  lift_result (git_add_result e);;
  m ← gets mirror;
  modify (set_index m).

Definition index_commit (message : string) : M unit :=
  modify (add_event (EvGitCommit message));;
  lift_result (git_commit_result e);;
  i ← gets index;
  h ← gets history;
  modify (set_history (h ++ [Commit message i])%list).

Definition create_commit (changed_files : gset string) : M unit :=
  try_except
    (git_add_all;;
     let timestamp := clock_now e in
     index_commit (commit_message timestamp changed_files);;
     logger INFO ("Создан коммит с " ++ pretty (size changed_files)
                  ++ " файлами"))
    (fun exc => logger ERROR ("Ошибка при создании коммита: " ++ exn_str exc)).

(** *** [push_to_remote] *)

Definition origin_push : M unit :=
  modify (add_event EvPush);;
  lift_result (git_push_result e);;
  h ← gets history;
  modify (set_remote h).

Definition push_to_remote : M unit :=
  if String.eqb (remote_url cfg) "" then
    logger INFO "Remote URL не настроен, пропускаем push"
  else
    try_except
      (origin_push;;
       logger INFO "Изменения отправлены на удаленный репозиторий")
      (fun exc =>
         logger ERROR ("Ошибка при отправке на удаленный репозиторий: "
                       ++ exn_str exc)).

(** *** [backup_cycle] *)
Definition backup_cycle : M unit :=
  logger INFO "Начинаю проверку файлов...";;
  try_except
    (changed_files ← check_for_changes;
     if bool_decide (changed_files = ∅) then
       logger INFO "Изменений не обнаружено"
     else
       logger INFO ("Обнаружено изменений: " ++ pretty (size changed_files));;
       copy_files_to_repo changed_files;;
       create_commit changed_files;;
       push_to_remote;;
       logger INFO "Цикл резервного копирования завершен успешно")
    (fun exc =>
       logger ERROR ("Ошибка в цикле резервного копирования: "
                     ++ exn_str exc)).

(** *** [run_once] *)
Definition run_once : M unit :=
  logger INFO "Выполняю разовое резервное копирование...";;
  backup_cycle.

End BackupSystem.

(** The cycles that [run_scheduler] starts: the first at once, each later
    one when the interval has elapsed, every cycle meeting the file system
    in the state [es] lists for it. *)
Fixpoint scheduler_cycles (cfg : config) (es : list env) : M unit :=
  match es with
  | [] => mret tt
  | e :: es' => backup_cycle cfg e;; scheduler_cycles cfg es'
  end.

(** ** What the methods compute, read off the file system

    The definitions below describe the results of the methods above as
    functions of the configuration and of the file system alone; the first
    lemmas of the next part show that the methods compute exactly these. *)

(** The [read] call numbered [k] is made by the chunk loop of a handle that
    has [n] bytes left after [r] calls: the loop goes on while the chunks
    are not empty. *)
Definition read_reached (r n k : nat) : Prop :=
  (r <= k)%nat /\ (chunk_size * (k - r) < n + chunk_size)%nat.

#[global] Instance read_reached_dec r n k : Decision (read_reached r n k).
Proof. unfold read_reached. apply _. Defined.

Definition handle_outcome (f : handle) (h : hash_obj) : result hash_obj :=
  match h_error f with
  | Some (k, exc) =>
      if decide (read_reached (h_reads f) (length (h_rest f)) k) then Raise exc
      else Ok (hash_update h (h_rest f))
  | None => Ok (hash_update h (h_rest f))
  end.

(** Reading a whole file: its bytes, or the I/O failure met on the way
    (the [open], or a [read] made before the end of the file). *)
Definition read_whole (e : env) (file_path : string) : result (list byte) :=
  match fs_open e file_path with
  | Raise exc => Raise exc
  | Ok f =>
      match f_read_error f with
      | Some (k, exc) =>
          if decide (read_reached 0 (length (f_content f)) k) then Raise exc
          else Ok (f_content f)
      | None => Ok (f_content f)
      end
  end.

(** The digest of the design document: the hexadecimal MD5 of the content,
    or the empty string when the file could not be read. *)
Definition file_digest (e : env) (file_path : string) : string :=
  match read_whole e file_path with
  | Ok content => MD5.hexdigest content
  | Raise _ => ""
  end.

Definition hashed_world (e : env) (file_path : string) (w : world) : world :=
  match read_whole e file_path with
  | Ok _ => add_event (EvOpen file_path) w
  | Raise exc =>
      add_log ERROR ("Ошибка при вычислении хеша для " ++ file_path ++ ": "
                     ++ exn_str exc)
              (add_event (EvOpen file_path) w)
  end.

(** The three checks of the file selector. *)
Definition pattern_excluded (cfg : config) (file_path : string) : bool :=
  match_patterns (PyStr.lower file_path) (exclude_patterns cfg).

Definition size_excluded (cfg : config) (e : env) (file_path : string) : bool :=
  match fs_getsize e file_path with
  | Ok size => size_exceeds cfg size
  | Raise _ => false
  end.

Definition extension_excluded (cfg : config) (file : string) : bool :=
  negb (is_empty_list (file_extensions cfg))
  && negb (bool_decide (PyStr.lower (OsPath.splitext_ext file)
                        ∈ file_extensions cfg)).

Definition selected (cfg : config) (e : env) (root file : string)
  : list string :=
  let file_path := OsPath.join root file in
  if pattern_excluded cfg file_path then []
  else if size_excluded cfg e file_path then []
  else if extension_excluded cfg file then []
  else [file_path].

Definition walk_selected (cfg : config) (e : env) (directory : string)
  : list string :=
  if fs_exists e directory then
    flat_map (fun '(root, _, files) => flat_map (selected cfg e root) files)
             (fs_walk e directory)
  else [].

(** The candidate files of one sweep, in the order they are met. *)
Definition candidates (cfg : config) (e : env) : list string :=
  flat_map (walk_selected cfg e) (directories cfg).

(** One step of the change detector on the digest map and the changed
    set. *)
Definition detect (e : env) (st : gmap string string * gset string)
  (file_path : string) : gmap string string * gset string :=
  let current_hash := file_digest e file_path in
  if String.eqb current_hash "" then st
  else if bool_decide (st.1 !! file_path = Some current_hash) then st
  else (<[file_path := current_hash]> st.1, {[file_path]} ∪ st.2).

Definition detect_all (e : env) (files : list string)
  (st : gmap string string * gset string) : gmap string string * gset string :=
  foldl (detect e) st files.

(** Events that only read the file system. *)
Definition read_event (ev : event) : Prop :=
  match ev with
  | EvExists _ | EvWalk _ | EvGetsize _ | EvOpen _ => True
  | _ => False
  end.

Definition keeps_repo (w w' : world) : Prop :=
  mirror w' = mirror w /\ index w' = index w /\
  history w' = history w /\ remote w' = remote w.

(** From [w] to [w'] the program only looked at the file system: nothing
    was copied, staged, committed or pushed. *)
Definition reads_only (w w' : world) : Prop :=
  keeps_repo w w' /\
  exists evs, trace w' = (trace w ++ evs)%list /\ Forall read_event evs.

Definition keeps_hashes (w w' : world) : Prop :=
  file_hashes w' = file_hashes w.

Definition observes (w w' : world) : Prop :=
  keeps_hashes w w' /\ reads_only w w'.

Definition cycle_start : string := "Начинаю проверку файлов...".
Definition no_changes : string := "Изменений не обнаружено".

(** ** Sample file systems

    A watched directory [./documents] holding [a.txt] (three bytes), [a.bin]
    and [.DS_Store]; [./projects] does not exist. *)
Section Samples.
Open Scope string_scope.

Definition documents_walk (directory : string)
  : list (string * list string * list string) :=
  if String.eqb directory "./documents"
  then [("./documents", [], ["a.txt"; "a.bin"; ".DS_Store"])]
  else [].

(** Every file can be read and every step of the sync succeeds. *)
Definition readable_env : env :=
  Env (fun d => String.eqb d "./documents") documents_walk
      (fun _ => Ok 3)
      (fun _ => Ok (File (list_byte_of_string "abc") None))
      "/home/user" (fun _ => Ok tt)
      (fun _ _ => Ok (list_byte_of_string "abc"))
      "2024-01-01 00:00:00" (Ok tt) (Ok tt) (Ok tt).

(** The same tree when no file can be opened. *)
Definition denied_env : env :=
  Env (fun d => String.eqb d "./documents") documents_walk
      (fun _ => Ok 3)
      (fun _ => Raise (OSError "Permission denied"))
      "/home/user" (fun _ => Ok tt)
      (fun _ _ => Raise (OSError "Permission denied"))
      "2024-01-01 00:30:00" (Ok tt) (Ok tt) (Ok tt).

(** The same tree when the files can be read but no copy, commit or push
    goes through. *)
Definition failing_sync_env : env :=
  Env (fun d => String.eqb d "./documents") documents_walk
      (fun _ => Ok 3)
      (fun _ => Ok (File (list_byte_of_string "abc") None))
      "/home/user" (fun _ => Ok tt)
      (fun _ _ => Raise (OSError "No space left on device"))
      "2024-01-01 00:00:00"
      (Raise (GitCommandError "git add failed"))
      (Raise (GitCommandError "git commit failed"))
      (Raise (GitCommandError "git push failed")).

(** The watched directory has gone. *)
Definition empty_env : env :=
  Env (fun _ => false) (fun _ => [])
      (fun _ => Raise (OSError "No such file or directory"))
      (fun _ => Raise (OSError "No such file or directory"))
      "/home/user" (fun _ => Ok tt)
      (fun _ _ => Raise (OSError "No such file or directory"))
      "2024-01-01 01:00:00" (Ok tt) (Ok tt) (Ok tt).

(** A configuration whose only exclusion pattern has capital letters, and
    which allows every extension. *)
Definition ds_store_config : config :=
  Config ["./documents"] [] "./backup_repo" "" 30 (50 # 1) [".DS_Store"].

Definition a_txt : string := "./documents/a.txt".
Definition ds_store : string := "./documents/.DS_Store".

Definition twelve_paths : gset string :=
  list_to_set ["f01"; "f02"; "f03"; "f04"; "f05"; "f06";
               "f07"; "f08"; "f09"; "f10"; "f11"; "f12"].

(** The state after one whole cycle over the readable tree, started from
    the initial state. *)
Definition after_first_sweep : world :=
  (backup_cycle default_config readable_env init_world).2.
End Samples.

(** ** Further views of the methods *)

Definition missing_warning (directory : string) : level * string :=
  (WARNING, ("Директория не существует: " ++ directory)%string).

(** Where [copy_files_to_repo] puts a file: the path under the backup
    directory, or the exception of [relative_to]. *)
Definition copy_target (cfg : config) (e : env) (file_path : string)
  : result OsPath.path :=
  let source_path := OsPath.parse file_path in
  match (if OsPath.is_absolute source_path
         then relative_to source_path (OsPath.parse (fs_cwd e))
         else Ok source_path) with
  | Ok relative_path =>
      Ok (OsPath.div (OsPath.parse (backup_repo_path cfg)) relative_path)
  | Raise exc => Raise exc
  end.

(** The destination and the bytes that the copy of one file writes, or the
    first exception on the way ([relative_to], [mkdir], [copy2]). *)
Definition copy_plan (cfg : config) (e : env) (file_path : string)
  : result (string * list byte) :=
  match copy_target cfg e file_path with
  | Raise exc => Raise exc
  | Ok target_path =>
      match fs_mkdir e (OsPath.to_string (OsPath.parent target_path)) with
      | Raise exc => Raise exc
      | Ok _ =>
          match fs_copy2 e file_path (OsPath.to_string target_path) with
          | Raise exc => Raise exc
          | Ok content => Ok (OsPath.to_string target_path, content)
          end
      end
  end.

Definition mirror_step (cfg : config) (e : env)
  (m : gmap string (list byte)) (file_path : string)
  : gmap string (list byte) :=
  match copy_plan cfg e file_path with
  | Ok (dst, content) => <[dst := content]> m
  | Raise _ => m
  end.

(** The commits that one call of [create_commit] adds. *)
Definition new_commits (e : env) (changed_files : gset string)
  (tree : gmap string (list byte)) : list commit :=
  match git_add_result e, git_commit_result e with
  | Ok _, Ok _ => [Commit (commit_message (clock_now e) changed_files) tree]
  | _, _ => []
  end.

(** From [w] to [w'] nothing was pushed. *)
Definition nothing_pushed (w w' : world) : Prop :=
  remote w' = remote w /\
  exists evs, trace w' = (trace w ++ evs)%list /\ EvPush ∉ evs.

(** Two file systems that a sweep cannot tell apart. *)
Definition same_files (cfg : config) (e1 e2 : env) : Prop :=
  candidates cfg e1 = candidates cfg e2
  /\ forall p, file_digest e1 p = file_digest e2 p.

(** Events of the copy step. *)
Definition copy_event (ev : event) : Prop :=
  match ev with
  | EvMkdir _ | EvCopy _ _ => True
  | _ => False
  end.

(** From [w] to [w'] only the mirror was written, by [mkdir] and [copy2]
    calls. *)
Definition copies_only (w w' : world) : Prop :=
  file_hashes w' = file_hashes w /\ index w' = index w /\
  history w' = history w /\ remote w' = remote w /\
  exists evs, trace w' = (trace w ++ evs)%list /\ Forall copy_event evs.

(** Events of the commit step. *)
Definition commit_event (ev : event) : Prop :=
  match ev with
  | EvGitAdd | EvGitCommit _ => True
  | _ => False
  end.

(** The remote after one call of [push_to_remote] from a state with remote
    [r] and history [h]. *)
Definition remote_after_push (cfg : config) (e : env) (r h : list commit)
  : list commit :=
  if String.eqb (remote_url cfg) "" then r
  else match git_push_result e with
       | Ok _ => h
       | Raise _ => r
       end.

(** ** Start-up: [load_config] and [init_git_repo] *)
Module Startup.
Open Scope string_scope.

(** What [json.load] returns. A [dict] keeps its items in the order they
    were inserted. *)
#[local] Unset Elimination Schemes.
Inductive json :=
| JNull
| JBool (b : bool)
| JInt (n : Z)
| JFloat (q : Q)
| JStr (s : string)
| JList (items : list json)
| JDict (items : list (string * json)).
#[local] Set Elimination Schemes.

(** The exceptions of this part, all of them subclasses of [Exception]. *)
Inductive exception :=
| TypeError (msg : string)
| JSONDecodeError (msg : string)
| OSError (msg : string)
| InvalidGitRepositoryError (msg : string)
| NoSuchPathError (msg : string)
| GitCommandError (msg : string).

Definition exception_str (exc : exception) : string :=
  match exc with
  | TypeError m | JSONDecodeError m | OSError m
  | InvalidGitRepositoryError m | NoSuchPathError m | GitCommandError m => m
  end.

Inductive outcome (A : Type) :=
| Returns (a : A)
| Raises (exc : exception).
Arguments Returns {A} a.
Arguments Raises {A} exc.

Inductive call :=
| CallExists (path : string)
| CallLoad (path : string)
| CallDump (path : string)
| CallRepo (path : string)
| CallMakedirs (path : string)
| CallRepoInit (path : string)
| CallCreateRemote (url : string).

(** What the file system and GitPython answer at start-up. *)
Record backend := Backend {
  writable : string -> outcome unit;
  repo_open : string -> outcome unit;
  makedirs : string -> outcome unit;
  repo_init : string -> outcome unit;
  create_remote : string -> outcome unit
}.

(** [docs] maps the path of a file to what [open] and [json.load] give for
    it; [repo] is [self.repo] and [origin] the remote of that name. *)
Record state := State {
  docs : gmap string (outcome json);
  stdout : list string;
  repo : option string;
  origin : option string;
  logged : list (level * string);
  calls : list call
}.

Definition Boot (A : Type) : Type := state -> outcome A * state.

#[global] Instance Boot_ret : MRet Boot := fun A (a : A) st => (Returns a, st).
#[global] Instance Boot_bind : MBind Boot :=
  fun A B (f : A -> Boot B) (m : Boot A) st =>
    match m st with
    | (Returns a, st') => f a st'
    | (Raises exc, st') => (Raises exc, st')
    end.

Definition try_except {A} (body : Boot A) (handler : exception -> Boot A)
  : Boot A :=
  fun st =>
    match body st with
    | (Returns a, st') => (Returns a, st')
    | (Raises exc, st') => handler exc st'
    end.

Definition lift {A} (r : outcome A) : Boot A := fun st => (r, st).
Definition gets {A} (f : state -> A) : Boot A := fun st => (Returns (f st), st).

Definition called (c : call) : Boot unit := fun st =>
  (Returns tt,
   State (docs st) (stdout st) (repo st) (origin st) (logged st)
         (calls st ++ [c])).

Definition print (line : string) : Boot unit := fun st =>
  (Returns tt,
   State (docs st) (stdout st ++ [line]) (repo st) (origin st) (logged st)
         (calls st)).

Definition logger (l : level) (m : string) : Boot unit := fun st =>
  (Returns tt,
   State (docs st) (stdout st) (repo st) (origin st) (logged st ++ [(l, m)])
         (calls st)).

Definition set_repo (r : string) : Boot unit := fun st =>
  (Returns tt,
   State (docs st) (stdout st) (Some r) (origin st) (logged st) (calls st)).

Definition set_origin (url : string) : Boot unit := fun st =>
  (Returns tt,
   State (docs st) (stdout st) (repo st) (Some url) (logged st) (calls st)).

Definition put_doc (path : string) (doc : json) : Boot unit := fun st =>
  (Returns tt,
   State (<[path := Returns doc]> (docs st)) (stdout st) (repo st) (origin st)
         (logged st) (calls st)).

(** *** [load_config] *)

Definition default_items : list (string * json) :=
  [ ("directories", JList [JStr "./documents"; JStr "./projects"]);
    ("file_extensions",
     JList [JStr ".txt"; JStr ".py"; JStr ".js"; JStr ".html"; JStr ".css";
            JStr ".md"; JStr ".json"]);
    ("backup_repo_path", JStr "./backup_repo");
    ("remote_url", JStr "");
    ("check_interval_minutes", JInt 30);
    ("max_file_size_mb", JInt 50);
    ("exclude_patterns",
     JList [JStr ".git"; JStr "__pycache__"; JStr "*.pyc"; JStr "node_modules";
            JStr ".env"]) ].

Definition has_key (key : string) (items : list (string * json)) : bool :=
  existsb (fun kv => String.eqb kv.1 key) items.

Definition is_str (key : string) (x : json) : bool :=
  match x with
  | JStr s => String.eqb s key
  | _ => false
  end.

Definition type_name (x : json) : string :=
  match x with
  | JNull => "NoneType"
  | JBool _ => "bool"
  | JInt _ => "int"
  | JFloat _ => "float"
  | JStr _ => "str"
  | JList _ => "list"
  | JDict _ => "dict"
  end.

(** [key not in config] *)
Definition not_in (key : string) (config : json) : outcome bool :=
  match config with
  | JDict items => Returns (negb (has_key key items))
  | JList items => Returns (negb (existsb (is_str key) items))
  | JStr s => Returns (negb (PyStr.contains key s))
  | _ => Raises (TypeError ("argument of type '" ++ type_name config
                            ++ "' is not iterable"))
  end.

(** [d[key] = value] on a [dict]: the value of an existing key is replaced
    where it is, a new key goes to the end. *)
Fixpoint dict_set (items : list (string * json)) (key : string) (value : json)
  : list (string * json) :=
  match items with
  | [] => [(key, value)]
  | (k, v) :: rest =>
      if String.eqb k key then (k, value) :: rest
      else (k, v) :: dict_set rest key value
  end.

(** [config[key] = value] *)
Definition setitem (config : json) (key : string) (value : json)
  : outcome json :=
  match config with
  | JDict items => Returns (JDict (dict_set items key value))
  | JList _ =>
      Raises (TypeError "list indices must be integers or slices, not str")
  | _ => Raises (TypeError ("'" ++ type_name config
                            ++ "' object does not support item assignment"))
  end.

(** [for key, value in default_config.items(): if key not in config:
    config[key] = value] *)
Fixpoint merge_defaults (defaults : list (string * json)) (config : json)
  : outcome json :=
  match defaults with
  | [] => Returns config
  | (key, value) :: rest =>
      match not_in key config with
      | Raises exc => Raises exc
      | Returns true =>
          match setitem config key value with
          | Raises exc => Raises exc
          | Returns config' => merge_defaults rest config'
          end
      | Returns false => merge_defaults rest config
      end
  end.

Definition os_path_exists (path : string) : Boot bool :=
  called (CallExists path);;
  d ← gets docs;
  mret (bool_decide (is_Some (d !! path))).

(** [with open(path, 'r') as f: json.load(f)] *)
Definition json_load (path : string) : Boot json :=
  called (CallLoad path);;
  d ← gets docs;
  match d !! path with
  | Some doc => lift doc
  | None => lift (Raises (OSError ("No such file or directory: " ++ path)))
  end.

(** [with open(path, 'w') as f: json.dump(doc, f)] *)
Definition json_dump (b : backend) (doc : json) (path : string) : Boot unit :=
  called (CallDump path);;
  lift (writable b path);;
  put_doc path doc.

Definition load_config (b : backend) (config_file : string) : Boot json :=
  let default_config := JDict default_items in
  present ← os_path_exists config_file;
  loaded ← (if (present : bool) then
              try_except
                (config ← json_load config_file;
                 config ← lift (merge_defaults default_items config);
                 mret (Some config))
                (fun exc =>
                   print ("Ошибка загрузки конфигурации: "
                          ++ exception_str exc);;
                   print "Используется конфигурация по умолчанию";;
                   mret None)
            else mret None);
  match loaded with
  | Some config => mret config
  | None => json_dump b default_config config_file;; mret default_config
  end.

(** *** [init_git_repo] *)

(** [try: body except InvalidGitRepositoryError: handler] *)
Definition try_except_invalid_repo {A} (body : Boot A) (handler : Boot A)
  : Boot A :=
  fun st =>
    match body st with
    | (Raises (InvalidGitRepositoryError _), st') => handler st'
    | other => other
    end.

Definition init_git_repo (b : backend) (cfg : config) : Boot unit :=
  let repo_path := backup_repo_path cfg in
  try_except_invalid_repo
    (called (CallRepo repo_path);;
     lift (repo_open b repo_path);;
     set_repo repo_path;;
     logger INFO ("Использую существующий репозиторий: " ++ repo_path))
    (called (CallMakedirs repo_path);;
     lift (makedirs b repo_path);;
     called (CallRepoInit repo_path);;
     lift (repo_init b repo_path);;
     set_repo repo_path;;
     logger INFO ("Создан новый Git репозиторий: " ++ repo_path);;
     if negb (String.eqb (remote_url cfg) "") then
       try_except
         (called (CallCreateRemote (remote_url cfg));;
          lift (create_remote b (remote_url cfg));;
          set_origin (remote_url cfg);;
          logger INFO ("Добавлен remote: " ++ remote_url cfg))
         (fun exc =>
            logger WARNING ("Не удалось добавить remote: "
                            ++ exception_str exc))
     else mret tt).

(** The state when the program starts, with the files [d] on disk. *)
Definition start (d : gmap string (outcome json)) : state :=
  State d [] None None [] [].
End Startup.

(** ** Further samples *)

(** The tree of [readable_env] after [a.txt] has been edited. *)
Definition edited_env : env :=
  Env (fun d => String.eqb d "./documents") documents_walk
      (fun _ => Ok 3)
      (fun _ => Ok (File (list_byte_of_string "abd") None))
      "/home/user" (fun _ => Ok tt)
      (fun _ _ => Ok (list_byte_of_string "abd"))
      "2024-01-01 00:30:00" (Ok tt) (Ok tt) (Ok tt).

(** The default configuration with an empty exclusion pattern added. *)
Definition blank_pattern_config : config :=
  Config ["./documents"; "./projects"]%string
         [".txt"; ".py"; ".js"; ".html"; ".css"; ".md"; ".json"]%string
         "./backup_repo" "" 30 (50 # 1)
         [".git"; ""]%string.

(** The default configuration with a remote. *)
Definition remote_config : config :=
  Config ["./documents"; "./projects"]%string
         [".txt"; ".py"; ".js"; ".html"; ".css"; ".md"; ".json"]%string
         "./backup_repo" "https://example.org/backup.git" 30 (50 # 1)
         [".git"; "__pycache__"; "*.pyc"; "node_modules"; ".env"]%string.

(** A configuration file that only sets the remote. *)
Definition remote_only_items : list (string * Startup.json) :=
  [("remote_url"%string, Startup.JStr "https://example.org/backup.git")].

Definition remote_only_docs : gmap string (Startup.outcome Startup.json) :=
  {["backup_config.json"%string
    := Startup.Returns (Startup.JDict remote_only_items)]}.

(** Every write goes through; the backup directory holds a repository. *)
Definition existing_repo_backend : Startup.backend :=
  Startup.Backend (fun _ => Startup.Returns tt) (fun _ => Startup.Returns tt)
                  (fun _ => Startup.Returns tt) (fun _ => Startup.Returns tt)
                  (fun _ => Startup.Returns tt).

(** The backup directory is there but holds no repository, and the remote
    cannot be registered. *)
Definition fresh_repo_backend : Startup.backend :=
  Startup.Backend
    (fun _ => Startup.Returns tt)
    (fun _ => Startup.Raises (Startup.InvalidGitRepositoryError "./backup_repo"))
    (fun _ => Startup.Returns tt) (fun _ => Startup.Returns tt)
    (fun _ => Startup.Raises (Startup.GitCommandError "remote add failed")).

(** * Properties *)

(** ** Test vectors of RFC 1321 *)

Example md5_empty : MD5.hexdigest [] = "d41d8cd98f00b204e9800998ecf8427e"%string.
Proof. vm_compute. reflexivity. Qed.

Example md5_abc :
  MD5.hexdigest (list_byte_of_string "abc") = "900150983cd24fb0d6963f7d28e17f72"%string.
Proof. vm_compute. reflexivity. Qed.

Example md5_fox :
  MD5.hexdigest (list_byte_of_string "The quick brown fox jumps over the lazy dog")
  = "9e107d9d372bb6826bd81d3542a419d6"%string.
Proof. vm_compute. reflexivity. Qed.

Example md5_two_blocks :
  MD5.hexdigest (list_byte_of_string
    "12345678901234567890123456789012345678901234567890123456789012345678901234567890")
  = "57edf4a22be3c955ac49da2e2107b67a"%string.
Proof. vm_compute. reflexivity. Qed.

(** ** The monad *)

Ltac run :=
  unfold logger; unfold mbind, M_bind, mret, M_ret, modify, gets, lift_result,
    try_except, raise; cbn beta iota.

Lemma keeps_repo_refl w : keeps_repo w w.
Proof. by repeat split. Qed.

Lemma keeps_repo_trans w1 w2 w3 :
  keeps_repo w1 w2 -> keeps_repo w2 w3 -> keeps_repo w1 w3.
Proof.
  intros (?&?&?&?) (?&?&?&?). repeat split; congruence.
Qed.

#[global] Instance reads_only_preorder : PreOrder reads_only.
Proof.
  split.
  - intros w. split; [apply keeps_repo_refl|].
    exists []. by rewrite app_nil_r.
  - intros w1 w2 w3 [Hr1 (evs1 & Ht1 & Hf1)] [Hr2 (evs2 & Ht2 & Hf2)].
    split; [by eapply keeps_repo_trans|].
    exists (evs1 ++ evs2)%list. split.
    + by rewrite Ht2, Ht1, app_assoc.
    + by apply Forall_app.
Qed.

#[global] Instance observes_preorder : PreOrder observes.
Proof.
  split.
  - intros w. by split.
  - intros w1 w2 w3 [Hh1 Hr1] [Hh2 Hr2]. split; [|by etrans].
    unfold keeps_hashes in *. congruence.
Qed.

Lemma observes_add_log l m w : observes w (add_log l m w).
Proof.
  split; [done|]. split; [by repeat split|].
  exists []. by rewrite app_nil_r.
Qed.

Lemma observes_add_event ev w : read_event ev -> observes w (add_event ev w).
Proof.
  intros Hev. split; [done|]. split; [by repeat split|].
  exists [ev]. split; [done|]. by constructor.
Qed.

Lemma reads_only_set_file_hashes h w : reads_only w (set_file_hashes h w).
Proof.
  split; [by repeat split|]. exists []. by rewrite app_nil_r.
Qed.

(** A loop whose body appends to the accumulator what a function of the
    element gives appends the [flat_map] of that function. *)
Lemma for_each_appends {A B} (R : relation world) `{!PreOrder R}
    (body : A -> list B -> M (list B)) (f : A -> list B) :
  (forall x acc w, exists w', body x acc w = (Ok (acc ++ f x), w') /\ R w w') ->
  forall l acc w,
    exists w', for_each l body acc w = (Ok (acc ++ flat_map f l), w') /\ R w w'.
Proof.
  intros Hbody l. induction l as [|x l IH]; intros acc w; simpl.
  - exists w. by rewrite app_nil_r.
  - destruct (Hbody x acc w) as (w1 & Hrun & HR1).
    destruct (IH (acc ++ f x) w1) as (w2 & Hrest & HR2).
    exists w2. run. rewrite Hrun, Hrest. split; [by rewrite app_assoc|by etrans].
Qed.

(** ** FileHasher *)

Lemma read_chunks_step f h :
  read_chunks f h =
  match handle_read chunk_size f with
  | Raise exc => Raise exc
  | Ok ([], _) => Ok h
  | Ok (b :: chunk, f') => read_chunks f' (hash_update h (b :: chunk))
  end.
Proof.
  funelim (read_chunks f h);
    match goal with Hr : handle_read _ _ = _ |- _ => rewrite Hr end;
    reflexivity.
Qed.

Lemma hash_update_nil h : hash_update h [] = h.
Proof. destruct h. unfold hash_update. simpl. by rewrite app_nil_r. Qed.

Lemma hash_update_app h c1 c2 :
  hash_update (hash_update h c1) c2 = hash_update h (c1 ++ c2).
Proof. unfold hash_update. simpl. by rewrite app_assoc. Qed.

Ltac reach :=
  unfold read_reached, chunk_size in *; repeat case_decide; try done; try lia.

(** The chunk loop feeds the hash object the rest of the file, in order,
    unless a failing [read] is reached first. *)
Lemma read_chunks_outcome n :
  forall f h, (length (h_rest f) <= n)%nat -> read_chunks f h = handle_outcome f h.
Proof.
  induction n as [|n IH]; intros [rest r err] h Hlen; cbn [h_rest] in Hlen;
    rewrite read_chunks_step; unfold handle_read, handle_outcome;
    cbn [h_error h_reads h_rest].
  - destruct rest; [|simpl in Hlen; lia]. rewrite take_nil, hash_update_nil.
    destruct err as [[k exc]|]; [|done]. cbn [length]. reach.
  - destruct (take chunk_size rest) as [|b chunk] eqn:Htake.
    + assert (rest = []) as ->.
      { apply (f_equal length) in Htake. rewrite length_take in Htake.
        destruct rest; [done|]. cbn [length] in Htake. reach. }
      rewrite hash_update_nil.
      destruct err as [[k exc]|]; [|done]. cbn [length]. reach.
    + assert (Hl : (length (drop chunk_size rest) <= n)%nat).
      { rewrite length_drop. reach. }
      assert (Hr : rest = (b :: chunk) ++ drop chunk_size rest).
      { rewrite <- Htake. by rewrite take_drop. }
      assert (Hc : (length (b :: chunk) = Nat.min chunk_size (length rest))).
      { rewrite <- Htake. apply length_take. }
      cbn [length] in Hc.
      destruct err as [[k exc]|].
      * case_decide as Hk.
        { subst k. rewrite decide_True; [done|]. reach. }
        rewrite (IH (Handle (drop chunk_size rest) (S r) (Some (k, exc)))) by done.
        unfold handle_outcome. cbn [h_error h_reads h_rest].
        rewrite hash_update_app, <- Hr, length_drop. reach.
      * rewrite (IH (Handle (drop chunk_size rest) (S r) None)) by done.
        unfold handle_outcome. cbn [h_error h_reads h_rest].
        by rewrite hash_update_app, <- Hr.
Qed.

Lemma calculate_file_hash_run e file_path w :
  calculate_file_hash e file_path w
  = (Ok (file_digest e file_path), hashed_world e file_path w).
Proof.
  unfold calculate_file_hash, open_rb, file_digest, hashed_world, read_whole.
  run.
  destruct (fs_open e file_path) as [f|exc]; [|done].
  rewrite (read_chunks_outcome (length (f_content f))) by done.
  unfold handle_outcome, open_handle, hashlib_md5, hash_hexdigest, hash_update.
  cbn [h_error h_reads h_rest fed].
  destruct (f_read_error f) as [[k exc]|]; [case_decide|]; done.
Qed.

Lemma hashed_world_observes e file_path w :
  observes w (hashed_world e file_path w).
Proof.
  unfold hashed_world.
  destruct (read_whole e file_path).
  - by apply observes_add_event.
  - etrans; [by apply (observes_add_event (EvOpen file_path))|].
    apply observes_add_log.
Qed.

Lemma hex_nonempty bs : bs <> [] -> MD5.hex bs <> ""%string.
Proof. destruct bs; [done|]. simpl. done. Qed.

Lemma hexdigest_nonempty content : MD5.hexdigest content <> ""%string.
Proof.
  unfold MD5.hexdigest, MD5.digest. apply hex_nonempty.
  intros Hnil. apply (f_equal length) in Hnil.
  rewrite !length_app in Hnil. simpl in Hnil. lia.
Qed.

Lemma hex_length bs : String.length (MD5.hex bs) = (2 * length bs)%nat.
Proof. induction bs as [|b bs IH]; simpl; [done|]. rewrite IH. lia. Qed.

Lemma hexdigest_length content : String.length (MD5.hexdigest content) = 32%nat.
Proof.
  unfold MD5.hexdigest, MD5.digest. rewrite hex_length, !length_app. done.
Qed.

Lemma file_digest_empty_iff e file_path :
  file_digest e file_path = ""%string <-> exists exc, read_whole e file_path = Raise exc.
Proof.
  unfold file_digest. destruct (read_whole e file_path) as [content|exc].
  - split; [|by intros [? ?]]. intros H. by apply hexdigest_nonempty in H.
  - split; [eauto|done].
Qed.

(** ** FileSelector *)

Lemma should_exclude_file_run cfg e file_path w :
  should_exclude_file cfg e file_path w
  = (Ok (pattern_excluded cfg file_path || size_excluded cfg e file_path),
     if pattern_excluded cfg file_path then w
     else add_event (EvGetsize file_path) w).
Proof.
  unfold should_exclude_file, pattern_excluded, size_excluded, os_path_getsize.
  destruct (match_patterns _ _); [done|]. run.
  destruct (fs_getsize e file_path) as [size|exc]; [|done].
  by destruct (size_exceeds cfg size).
Qed.

Lemma visit_file_run cfg e root file acc w :
  visit_file cfg e root file acc w
  = (Ok (acc ++ selected cfg e root file),
     if pattern_excluded cfg (OsPath.join root file) then w
     else add_event (EvGetsize (OsPath.join root file)) w).
Proof.
  unfold visit_file, selected. run. rewrite should_exclude_file_run.
  fold (extension_excluded cfg file).
  destruct (pattern_excluded cfg _); simpl; [by rewrite app_nil_r|].
  destruct (size_excluded cfg e _); simpl; [by rewrite app_nil_r|].
  destruct (extension_excluded cfg file); simpl; [by rewrite app_nil_r|done].
Qed.

Lemma visit_file_observes cfg e root file acc w :
  exists w', visit_file cfg e root file acc w
             = (Ok (acc ++ selected cfg e root file), w') /\ observes w w'.
Proof.
  rewrite visit_file_run. eexists; split; [done|].
  destruct (pattern_excluded cfg _); [done|]. by apply observes_add_event.
Qed.

Lemma visit_directory_observes cfg e directory acc w :
  exists w', visit_directory cfg e directory acc w
             = (Ok (acc ++ walk_selected cfg e directory), w') /\ observes w w'.
Proof.
  unfold visit_directory, walk_selected, os_path_exists, os_walk. run.
  destruct (fs_exists e directory).
  - destruct (for_each_appends observes
                 (fun '((root, dirs, files) : string * list string * list string)
                      acc => for_each files (visit_file cfg e root) acc)
                 (fun '((root, _, files) : string * list string * list string)
                    => flat_map (selected cfg e root) files)
                 (fun '(root, dirs, files) acc' w0 =>
                    for_each_appends observes _ _
                      (visit_file_observes cfg e root) files acc' w0)
                 (fs_walk e directory) acc
                 (add_event (EvWalk directory)
                    (add_event (EvExists directory) w)))
      as (w' & Hrun & Hobs).
    exists w'. split; [exact Hrun|].
    etrans; [|exact Hobs].
    etrans; [by apply (observes_add_event (EvExists directory))|].
    by apply (observes_add_event (EvWalk directory)).
  - eexists. split; [by rewrite app_nil_r|].
    etrans; [by apply (observes_add_event (EvExists directory))|].
    apply observes_add_log.
Qed.

Lemma get_files_to_backup_run cfg e w :
  exists w', get_files_to_backup cfg e w = (Ok (candidates cfg e), w')
             /\ observes w w'.
Proof.
  unfold get_files_to_backup, candidates.
  destruct (for_each_appends observes (visit_directory cfg e)
              (walk_selected cfg e) (visit_directory_observes cfg e)
              (directories cfg) [] w) as (w' & Hrun & Hobs).
  by exists w'.
Qed.

(** ** ChangeDetector *)

Lemma check_file_run e file_path changed_files w :
  exists w',
    check_file e file_path changed_files w
    = (Ok (detect e (file_hashes w, changed_files) file_path).2, w')
    /\ file_hashes w' = (detect e (file_hashes w, changed_files) file_path).1
    /\ reads_only w w'.
Proof.
  unfold check_file, detect. run. rewrite calculate_file_hash_run.
  pose proof (hashed_world_observes e file_path w) as [Hh Hr].
  unfold keeps_hashes in Hh.
  destruct (String.eqb (file_digest e file_path) "") eqn:Hempty; simpl.
  { eexists. split; [done|]. by split. }
  rewrite Hh.
  destruct (bool_decide (file_hashes w !! file_path
                         = Some (file_digest e file_path))) eqn:Hsame; simpl.
  - apply bool_decide_eq_true in Hsame. rewrite Hsame.
    rewrite bool_decide_eq_false_2 by done. simpl.
    eexists. split; [done|]. by split.
  - rewrite orb_true_r. eexists. split; [done|]. split; [done|].
    etrans; [exact Hr|]. apply reads_only_set_file_hashes.
Qed.

Lemma for_each_check_file_run e files :
  forall changed_files w,
  exists w',
    for_each files (check_file e) changed_files w
    = (Ok (detect_all e files (file_hashes w, changed_files)).2, w')
    /\ file_hashes w' = (detect_all e files (file_hashes w, changed_files)).1
    /\ reads_only w w'.
Proof.
  induction files as [|p files IH]; intros changed_files w; simpl.
  - exists w. split; [done|]. split; [done|]. reflexivity.
  - destruct (check_file_run e p changed_files w) as (w1 & Hrun & Hh & Hr).
    destruct (IH (detect e (file_hashes w, changed_files) p).2 w1)
      as (w2 & Hrest & Hh2 & Hr2).
    exists w2. run. rewrite Hrun, Hrest, Hh2, Hh.
    rewrite <- surjective_pairing. split; [done|]. split; [done|]. by etrans.
Qed.

Lemma check_for_changes_run cfg e w :
  exists w',
    check_for_changes cfg e w
    = (Ok (detect_all e (candidates cfg e) (file_hashes w, ∅)).2, w')
    /\ file_hashes w' = (detect_all e (candidates cfg e) (file_hashes w, ∅)).1
    /\ reads_only w w'.
Proof.
  unfold check_for_changes. run.
  destruct (get_files_to_backup_run cfg e w) as (w1 & Hrun & Hh & Hr).
  destruct (for_each_check_file_run e (candidates cfg e) ∅ w1)
    as (w2 & Hrest & Hh2 & Hr2).
  unfold keeps_hashes in Hh. rewrite Hh in Hrest, Hh2.
  exists w2. rewrite Hrun, Hrest. split; [done|]. split; [done|]. by etrans.
Qed.

Ltac same_guard :=
  match goal with
  | |- (if bool_decide ?P then _ else _) = (if bool_decide ?Q then _ else _) =>
      rewrite (bool_decide_ext P Q); [done|]
  end.

Lemma detect_cases e st x :
  (detect e st x = st
   /\ (file_digest e x = ""%string \/ st.1 !! x = Some (file_digest e x)))
  \/ (detect e st x = (<[x := file_digest e x]> st.1, {[x]} ∪ st.2)
      /\ file_digest e x <> ""%string
      /\ st.1 !! x <> Some (file_digest e x)).
Proof.
  unfold detect.
  destruct (String.eqb_spec (file_digest e x) "") as [Hx|Hx]; [by auto|].
  case_bool_decide; by auto.
Qed.

(** The digest map after the detector has gone through [files]. *)
Lemma detect_all_hashes e files :
  forall st p,
    (detect_all e files st).1 !! p
    = if bool_decide (p ∈ files /\ file_digest e p <> ""%string)
      then Some (file_digest e p) else st.1 !! p.
Proof.
  unfold detect_all.
  induction files as [|x files IH]; intros st p; cbn [foldl].
  - case_bool_decide as H; [|done]. destruct H as [H _]. by inversion H.
  - rewrite IH.
    destruct (detect_cases e st x) as [[-> Hx]|(-> & Hx & Hnew)]; cbn [fst snd].
    + destruct (decide (p = x)) as [->|Hne].
      * destruct Hx as [Hx|Hx].
        { same_guard. rewrite elem_of_cons. intuition (subst; try congruence; eauto). }
        rewrite Hx. by repeat case_bool_decide.
      * same_guard. rewrite elem_of_cons. intuition (subst; try congruence; eauto).
    + destruct (decide (p = x)) as [->|Hne].
      * rewrite lookup_insert_eq.
        rewrite (bool_decide_eq_true_2 (x ∈ x :: files /\ _)); [|by split; [left|]].
        by case_bool_decide.
      * rewrite lookup_insert_ne by done.
        same_guard. rewrite elem_of_cons. intuition (subst; try congruence; eauto).
Qed.

(** The changed set after the detector has gone through [files]. *)
Lemma detect_all_changed e files :
  forall st p,
    p ∈ (detect_all e files st).2
    <-> p ∈ st.2 \/ (p ∈ files /\ file_digest e p <> ""%string
                     /\ st.1 !! p <> Some (file_digest e p)).
Proof.
  unfold detect_all.
  induction files as [|x files IH]; intros st p; cbn [foldl].
  - split; [auto|]. intros [H|[H _]]; [done|by inversion H].
  - rewrite IH.
    destruct (detect_cases e st x) as [[-> Hx]|(-> & Hx & Hnew)]; cbn [fst snd].
    + rewrite elem_of_cons. intuition (subst; try congruence; eauto).
    + rewrite elem_of_union, elem_of_singleton, elem_of_cons.
      destruct (decide (p = x)) as [->|Hne].
      * intuition (subst; try congruence; eauto).
      * rewrite lookup_insert_ne by done. intuition (subst; try congruence; eauto).
Qed.

(** ** SnapshotSync: none of its steps raises or touches the digest map *)

Ltac split_match :=
  repeat match goal with
         | |- context [match ?x with _ => _ end] =>
             match type of x with
             | result _ => destruct x
             | bool => destruct x
             | unit => destruct x
             end; cbn beta iota
         | |- context [if ?x then _ else _] => destruct x; cbn beta iota
         end.

Lemma copy_file_keeps_hashes e repo_path file_path w :
  exists w', copy_file e repo_path file_path tt w = (Ok tt, w')
             /\ keeps_hashes w w'.
Proof.
  unfold copy_file, mkdir_parents, shutil_copy2. run.
  split_match; eexists; (split; [reflexivity|done]).
Qed.

Lemma copy_files_to_repo_keeps_hashes cfg e changed_files w :
  exists w', copy_files_to_repo cfg e changed_files w = (Ok tt, w')
             /\ keeps_hashes w w'.
Proof.
  unfold copy_files_to_repo.
  generalize (elements changed_files) as l. intros l. revert w.
  induction l as [|p l IH]; intros w; simpl; [by exists w|].
  destruct (copy_file_keeps_hashes e (OsPath.parse (backup_repo_path cfg)) p w)
    as (w1 & Hrun & Hh1).
  destruct (IH w1) as (w2 & Hrest & Hh2).
  exists w2. run. rewrite Hrun. split; [done|].
  unfold keeps_hashes in *. congruence.
Qed.

Lemma create_commit_keeps_hashes e changed_files w :
  exists w', create_commit e changed_files w = (Ok tt, w') /\ keeps_hashes w w'.
Proof.
  unfold create_commit, git_add_all, index_commit. run.
  split_match; eexists; (split; [reflexivity|done]).
Qed.

Lemma push_to_remote_keeps_hashes cfg e w :
  exists w', push_to_remote cfg e w = (Ok tt, w') /\ keeps_hashes w w'.
Proof.
  unfold push_to_remote, origin_push. run.
  split_match; eexists; (split; [reflexivity|done]).
Qed.

(** A whole cycle returns, and leaves the digest map as the change detector
    left it, whatever became of the copy, the commit and the push. *)
Lemma backup_cycle_run cfg e w :
  exists w',
    backup_cycle cfg e w = (Ok tt, w')
    /\ file_hashes w'
       = (detect_all e (candidates cfg e) (file_hashes w, ∅)).1.
Proof.
  unfold backup_cycle. run.
  destruct (check_for_changes_run cfg e (add_log INFO cycle_start w))
    as (w1 & Hrun & Hh & _).
  change (file_hashes (add_log INFO cycle_start w)) with (file_hashes w) in *.
  unfold cycle_start in Hrun. rewrite Hrun.
  set (changed := (detect_all e (candidates cfg e) (file_hashes w, ∅)).2) in *.
  case_bool_decide; cbn beta iota.
  { eexists. split; [reflexivity|]. exact Hh. }
  destruct (copy_files_to_repo_keeps_hashes cfg e changed
              (add_log INFO ("Обнаружено изменений: " ++ pretty (size changed)) w1))
    as (w2 & Hcopy & Hh2).
  destruct (create_commit_keeps_hashes e changed w2) as (w3 & Hcommit & Hh3).
  destruct (push_to_remote_keeps_hashes cfg e w3) as (w4 & Hpush & Hh4).
  rewrite Hcopy, Hcommit, Hpush.
  eexists. split; [reflexivity|].
  unfold keeps_hashes in *. cbn [add_log file_hashes] in *. congruence.
Qed.

Lemma scheduler_cycles_run cfg es :
  forall w, exists w', scheduler_cycles cfg es w = (Ok tt, w').
Proof.
  induction es as [|e es IH]; intros w; simpl; [by exists w|].
  destruct (backup_cycle_run cfg e w) as (w1 & Hrun & _).
  destruct (IH w1) as (w2 & Hrest).
  exists w2. run. by rewrite Hrun.
Qed.

Lemma detect_all_dom e files st :
  dom st.1 ⊆ dom (detect_all e files st).1.
Proof.
  intros p. rewrite !elem_of_dom, detect_all_hashes.
  case_bool_decide; [by eauto|done].
Qed.

(** ** Strings *)

Lemma string_app_cons x (a b : string) :
  (String x a ++ b = String x (a ++ b))%string.
Proof. reflexivity. Qed.

Lemma string_app_assoc (a b c : string) : ((a ++ b) ++ c = a ++ b ++ c)%string.
Proof. induction a as [|x a IH]; [done|]. rewrite !string_app_cons. by f_equal. Qed.

Lemma string_app_nil_r (a : string) : (a ++ "" = a)%string.
Proof. induction a as [|x a IH]; [done|]. rewrite string_app_cons. by f_equal. Qed.

Lemma foldl_file_lines (l : list string) : forall init : string,
  foldl (fun msg file_path => (msg ++ file_line file_path)%string) init l
  = (init ++ foldr (fun p rest => "- " ++ p ++ nl ++ rest) "" l)%string.
Proof.
  induction l as [|p l IH]; intros init; cbn [foldl foldr].
  - by rewrite string_app_nil_r.
  - rewrite IH. unfold file_line. by rewrite !string_app_assoc.
Qed.

(** * The claims *)

(** C8. [calculate_file_hash] never raises: from any state it returns, with
    the hexadecimal MD5 digest of the whole content when the file is opened
    and read to its end (the chunks of 4096 bytes add up to the content),
    and with the empty string on any I/O failure, which it logs. *)
Theorem calculate_file_hash_never_raises e file_path w :
  calculate_file_hash e file_path w
  = (Ok (match read_whole e file_path with
         | Ok content => MD5.hexdigest content
         | Raise _ => ""%string
         end),
     hashed_world e file_path w).
Proof. apply calculate_file_hash_run. Qed.

(** C9. With an empty digest map, the changed set of the sweep is exactly
    the set of candidates whose hash computation succeeds. *)
Theorem empty_store_marks_every_hashed_candidate cfg e w :
  file_hashes w = ∅ ->
  exists changed w',
    check_for_changes cfg e w = (Ok changed, w')
    /\ forall p, p ∈ changed
                 <-> p ∈ candidates cfg e /\ file_digest e p <> ""%string.
Proof.
  intros Hempty.
  destruct (check_for_changes_run cfg e w) as (w' & Hrun & _).
  eexists _, w'. split; [exact Hrun|].
  intros p. rewrite detect_all_changed. cbn [fst snd]. rewrite Hempty.
  rewrite lookup_empty. split.
  - intros [H|(? & ? & _)]; [by apply not_elem_of_empty in H|done].
  - intros [? ?]. right. done.
Qed.

(** C1. A candidate of one sweep whose hash computation succeeds there, and
    whose digest is the same at the next sweep, is not in the changed set of
    that next sweep. *)
Theorem unchanged_file_not_in_next_changed_set cfg e1 e2 w0 w1 p :
  p ∈ candidates cfg e1 ->
  file_digest e1 p <> ""%string ->
  file_digest e2 p = file_digest e1 p ->
  file_hashes w1 = file_hashes (check_for_changes cfg e1 w0).2 ->
  exists changed w2,
    check_for_changes cfg e2 w1 = (Ok changed, w2) /\ p ∉ changed.
Proof.
  intros Hcand Hok Hsame Hstore.
  destruct (check_for_changes_run cfg e1 w0) as (wa & Hrun1 & Hh1 & _).
  rewrite Hrun1 in Hstore. cbn [snd] in Hstore.
  destruct (check_for_changes_run cfg e2 w1) as (w2 & Hrun2 & _).
  eexists _, w2. split; [exact Hrun2|].
  rewrite detect_all_changed. cbn [fst snd].
  intros [H|(_ & _ & Hdiff)]; [by apply not_elem_of_empty in H|].
  apply Hdiff. rewrite Hstore, Hh1, detect_all_hashes.
  rewrite bool_decide_eq_true_2 by done. by rewrite Hsame.
Qed.

(** C4, as amended. When reading a file fails during a sweep, the path is
    not in the changed set and its entry in the digest map is what it was
    before the sweep: absent if it was absent, the earlier digest
    otherwise. *)
Theorem failed_hash_leaves_entry_as_it_was cfg e w p exc :
  read_whole e p = Raise exc ->
  exists changed w',
    check_for_changes cfg e w = (Ok changed, w')
    /\ (p ∉ changed)
    /\ file_hashes w' !! p = file_hashes w !! p.
Proof.
  intros Hfail.
  assert (Hd : file_digest e p = ""%string).
  { apply file_digest_empty_iff. eauto. }
  destruct (check_for_changes_run cfg e w) as (w' & Hrun & Hh & _).
  eexists _, w'. split; [exact Hrun|]. split.
  - rewrite detect_all_changed. cbn [fst snd].
    intros [H|(_ & Hne & _)]; [by apply not_elem_of_empty in H|done].
  - rewrite Hh, detect_all_hashes. cbn [fst].
    rewrite bool_decide_eq_false_2; [done|]. by intros [_ ?].
Qed.

(** C5. A path put in the changed set has the fresh digest in the digest
    map when [check_for_changes] returns, nothing having been copied,
    committed or pushed yet; and whatever becomes of the copy, the commit
    and the push of that cycle, the next sweep does not put the path in its
    changed set if the digest is unchanged. *)
Theorem changed_path_digest_recorded_at_once cfg e w0 changed w1 p :
  check_for_changes cfg e (add_log INFO cycle_start w0) = (Ok changed, w1) ->
  p ∈ changed ->
  file_hashes w1 !! p = Some (file_digest e p)
  /\ reads_only w0 w1
  /\ forall e2,
       file_digest e2 p = file_digest e p ->
       exists changed2 w3,
         check_for_changes cfg e2
           (add_log INFO cycle_start (backup_cycle cfg e w0).2)
         = (Ok changed2, w3)
         /\ p ∉ changed2.
Proof.
  intros Hrun Hin.
  destruct (check_for_changes_run cfg e (add_log INFO cycle_start w0))
    as (w1' & Hrun' & Hh & Hr).
  rewrite Hrun in Hrun'. injection Hrun' as Hch <-.
  change (file_hashes (add_log INFO cycle_start w0)) with (file_hashes w0) in *.
  subst changed. apply detect_all_changed in Hin. cbn [fst snd] in Hin.
  destruct Hin as [Hin|(Hcand & Hok & _)]; [by apply not_elem_of_empty in Hin|].
  assert (Hnow : file_hashes w1 !! p = Some (file_digest e p)).
  { rewrite Hh, detect_all_hashes. by rewrite bool_decide_eq_true_2. }
  split; [exact Hnow|]. split.
  { etrans; [|exact Hr]. apply observes_add_log. }
  intros e2 Hsame.
  destruct (backup_cycle_run cfg e w0) as (wc & Hcycle & Hhc).
  rewrite Hcycle. cbn [snd].
  destruct (check_for_changes_run cfg e2 (add_log INFO cycle_start wc))
    as (w3 & Hrun3 & _).
  eexists _, w3. split; [exact Hrun3|].
  rewrite detect_all_changed. cbn [fst snd].
  intros [H|(_ & _ & Hdiff)]; [by apply not_elem_of_empty in H|].
  apply Hdiff.
  change (file_hashes (add_log INFO cycle_start wc)) with (file_hashes wc).
  rewrite Hhc, <- Hh, Hsame. exact Hnow.
Qed.

(** C7. When [check_for_changes] returns the empty set, [backup_cycle]
    returns normally after logging, at level INFO, that nothing changed: the
    mirror, the index, the history and the remote are what they were, and
    the only calls made are reads of the file system. *)
Theorem empty_changed_set_skips_sync cfg e w w1 :
  check_for_changes cfg e (add_log INFO cycle_start w) = (Ok ∅, w1) ->
  backup_cycle cfg e w = (Ok tt, add_log INFO no_changes w1)
  /\ reads_only w (add_log INFO no_changes w1).
Proof.
  intros Hrun. split.
  - unfold backup_cycle. run. unfold cycle_start in Hrun. rewrite Hrun.
    by rewrite bool_decide_eq_true_2.
  - destruct (check_for_changes_run cfg e (add_log INFO cycle_start w))
      as (w1' & Hrun' & _ & Hr).
    rewrite Hrun in Hrun'. injection Hrun' as _ <-.
    etrans; [apply observes_add_log|].
    etrans; [exact Hr|]. apply observes_add_log.
Qed.

(** C10. The digest map never loses a key: not in [check_for_changes], and
    not in any number of backup cycles, which are all the program runs; a
    path that is no candidate of those cycles keeps the entry it had. *)
Theorem digest_store_never_loses_an_entry cfg :
  (forall e w,
     dom (file_hashes w) ⊆ dom (file_hashes (check_for_changes cfg e w).2))
  /\ (forall es w,
        dom (file_hashes w) ⊆ dom (file_hashes (scheduler_cycles cfg es w).2))
  /\ (forall es w p,
        Forall (fun e => p ∉ candidates cfg e) es ->
        file_hashes (scheduler_cycles cfg es w).2 !! p = file_hashes w !! p).
Proof.
  split; [|split].
  - intros e w.
    destruct (check_for_changes_run cfg e w) as (w' & Hrun & Hh & _).
    rewrite Hrun. cbn [snd]. rewrite Hh. apply (detect_all_dom e _ (_, _)).
  - intros es. induction es as [|e es IH]; intros w; [done|].
    cbn [scheduler_cycles]. run.
    destruct (backup_cycle_run cfg e w) as (w1 & Hrun & Hh). rewrite Hrun.
    etrans; [|apply IH]. rewrite Hh. apply (detect_all_dom e _ (_, _)).
  - intros es. induction es as [|e es IH]; intros w p Hgone; [done|].
    inversion Hgone as [|? ? Hp Hrest]; subst.
    cbn [scheduler_cycles]. run.
    destruct (backup_cycle_run cfg e w) as (w1 & Hrun & Hh). rewrite Hrun.
    rewrite IH by done. rewrite Hh, detect_all_hashes.
    rewrite bool_decide_eq_false_2; [done|]. by intros [? _].
Qed.

(** C6. For one file of the walk: a pattern hit excludes it without its
    size being asked for; otherwise the size is asked for and a size over
    the limit excludes it; otherwise, and also when asking for the size
    raised, the extension allow-list decides. *)
Theorem exclusion_checks_in_order cfg e root file files_to_backup w :
  let file_path := OsPath.join root file in
  let sized := add_event (EvGetsize file_path) w in
  let by_extension :=
    if extension_excluded cfg file then files_to_backup
    else (files_to_backup ++ [file_path])%list in
  should_exclude_file cfg e file_path w
  = (if pattern_excluded cfg file_path then (Ok true, w)
     else match fs_getsize e file_path with
          | Ok size => (Ok (size_exceeds cfg size), sized)
          | Raise _ => (Ok false, sized)
          end)
  /\ visit_file cfg e root file files_to_backup w
     = (if pattern_excluded cfg file_path then (Ok files_to_backup, w)
        else match fs_getsize e file_path with
             | Ok size =>
                 if size_exceeds cfg size then (Ok files_to_backup, sized)
                 else (Ok by_extension, sized)
             | Raise _ => (Ok by_extension, sized)
             end).
Proof.
  intros file_path sized by_extension. subst by_extension sized.
  rewrite visit_file_run, should_exclude_file_run.
  unfold selected, size_excluded. fold file_path.
  destruct (pattern_excluded cfg file_path); cbn [orb].
  { by rewrite app_nil_r. }
  destruct (fs_getsize e file_path) as [size|exc].
  - split; [done|].
    destruct (size_exceeds cfg size); [by rewrite app_nil_r|].
    destruct (extension_excluded cfg file); [by rewrite app_nil_r|done].
  - split; [done|].
    destruct (extension_excluded cfg file); [by rewrite app_nil_r|done].
Qed.

(** C2. The commit message is the timestamp line, the line with the exact
    number of changed files and, for at most 10 files only, one line for
    each path of a list in which every changed path occurs exactly once, in
    increasing order; [create_commit] commits with that message. *)
Theorem commit_message_lists_sorted_paths timestamp (changed_files : gset string) :
  exists listed : list string,
    StronglySorted String.le listed
    /\ NoDup listed
    /\ (forall p, p ∈ listed <-> p ∈ changed_files)
    /\ length listed = size changed_files
    /\ commit_message timestamp changed_files
       = ("Автоматическое резервное копирование - " ++ timestamp ++ nl ++ nl
          ++ "Изменено файлов: " ++ pretty (size changed_files) ++ nl
          ++ (if decide (size changed_files <= 10)%nat
              then nl ++ "Измененные файлы:" ++ nl
                   ++ foldr (fun p rest => "- " ++ p ++ nl ++ rest) "" listed
              else ""))%string
    /\ forall e w,
         trace (create_commit e changed_files w).2
         = (trace w ++ EvGitAdd ::
            match git_add_result e with
            | Ok _ => [EvGitCommit (commit_message (clock_now e) changed_files)]
            | Raise _ => []
            end)%list.
Proof.
  exists (sorted changed_files).
  assert (Hperm : sorted changed_files ≡ₚ elements changed_files).
  { apply merge_sort_Permutation. }
  split; [apply (StronglySorted_merge_sort String.le)|].
  split; [rewrite Hperm; apply NoDup_elements|].
  split; [intros p; rewrite Hperm; apply elem_of_elements|].
  split; [by rewrite Hperm|].
  split.
  - unfold commit_message. rewrite foldl_file_lines.
    destruct (Nat.leb_spec (size changed_files) 10).
    + rewrite decide_True by done. by rewrite !string_app_assoc.
    + rewrite decide_False by lia. by rewrite !string_app_assoc, string_app_nil_r.
  - intros e w. unfold create_commit, git_add_all, index_commit. run.
    cbn [add_event trace].
    destruct (git_add_result e) as [[]|]; [|done]. cbn [add_event trace set_index].
    destruct (git_commit_result e) as [[]|]; cbn; by rewrite <- app_assoc.
Qed.

(** C3. The path is lowered before the patterns are tried, the patterns are
    not: with the exclusion pattern [.DS_Store], the file
    [./documents/.DS_Store] contains the pattern, with or without regard to
    case, and yet is not excluded, and becomes a candidate. *)
Theorem capital_letters_in_pattern_defeat_the_match :
  PyStr.startswith ".DS_Store" "*." = false
  /\ PyStr.contains ".DS_Store" ds_store = true
  /\ PyStr.contains (PyStr.lower ".DS_Store") (PyStr.lower ds_store) = true
  /\ should_exclude_file ds_store_config readable_env ds_store init_world
     = (Ok false, add_event (EvGetsize ds_store) init_world)
  /\ candidates ds_store_config readable_env
     = ["./documents/a.txt"; "./documents/a.bin"; "./documents/.DS_Store"]%string.
Proof. repeat split; vm_compute; reflexivity. Qed.

Lemma match_patterns_hit path_str patterns pattern :
  pattern ∈ patterns ->
  PyStr.startswith pattern "*." = false ->
  PyStr.contains pattern path_str = true ->
  match_patterns path_str patterns = true.
Proof.
  intros Hin Hsub Hhit. induction patterns as [|q patterns IH].
  - by inversion Hin.
  - cbn [match_patterns]. apply elem_of_cons in Hin as [<-|Hin].
    + by rewrite Hsub, Hhit.
    + rewrite IH by done. by repeat case_match.
Qed.

(** What does hold of the substring patterns: a pattern written in lower
    case excludes every path that contains it in any mix of cases. *)
Lemma lowercase_pattern_excludes cfg e pattern file_path w :
  pattern ∈ exclude_patterns cfg ->
  PyStr.startswith pattern "*." = false ->
  PyStr.lower pattern = pattern ->
  PyStr.contains (PyStr.lower pattern) (PyStr.lower file_path) = true ->
  should_exclude_file cfg e file_path w = (Ok true, w).
Proof.
  intros Hin Hsub Hlow Hhit. rewrite Hlow in Hhit.
  rewrite should_exclude_file_run. unfold pattern_excluded.
  by rewrite (match_patterns_hit _ _ pattern).
Qed.

(** ** Instances *)

Lemma unchanged_file_not_in_next_changed_set_witness :
  exists changed w2,
    check_for_changes default_config readable_env after_first_sweep
    = (Ok changed, w2)
    /\ a_txt ∉ changed.
Proof.
  apply (unchanged_file_not_in_next_changed_set
           default_config readable_env readable_env init_world
           after_first_sweep a_txt).
  - apply (bool_decide_unpack _). vm_compute. exact I.
  - vm_compute. discriminate.
  - reflexivity.
  - vm_compute. reflexivity.
Defined.

Lemma empty_store_marks_every_hashed_candidate_witness :
  exists changed w',
    check_for_changes default_config readable_env init_world = (Ok changed, w')
    /\ forall p, p ∈ changed
                 <-> p ∈ candidates default_config readable_env
                     /\ file_digest readable_env p <> ""%string.
Proof.
  apply (empty_store_marks_every_hashed_candidate
           default_config readable_env init_world).
  reflexivity.
Defined.

Lemma failed_hash_leaves_entry_as_it_was_witness :
  exists changed w',
    check_for_changes default_config denied_env after_first_sweep
    = (Ok changed, w')
    /\ (a_txt ∉ changed)
    /\ file_hashes w' !! a_txt = file_hashes after_first_sweep !! a_txt.
Proof.
  apply (failed_hash_leaves_entry_as_it_was
           default_config denied_env after_first_sweep a_txt
           (OSError "Permission denied")).
  vm_compute. reflexivity.
Defined.

(** C4, as stated, fails: the file is hashed in one sweep and cannot be
    opened in the next, and the digest map still holds its earlier digest
    after that next sweep. *)
Lemma failed_hash_entry_can_remain :
  a_txt ∈ candidates default_config denied_env
  /\ read_whole denied_env a_txt = Raise (OSError "Permission denied")
  /\ ~ (file_hashes
          (check_for_changes default_config denied_env after_first_sweep).2
        !! a_txt = None).
Proof.
  split; [|split].
  - apply (bool_decide_unpack _). vm_compute. exact I.
  - vm_compute. reflexivity.
  - vm_compute. discriminate.
Qed.

Lemma changed_path_digest_recorded_at_once_witness :
  file_hashes
    (check_for_changes default_config failing_sync_env
       (add_log INFO cycle_start init_world)).2 !! a_txt
  = Some (file_digest failing_sync_env a_txt)
  /\ exists changed2 w3,
       check_for_changes default_config readable_env
         (add_log INFO cycle_start
            (backup_cycle default_config failing_sync_env init_world).2)
       = (Ok changed2, w3)
       /\ a_txt ∉ changed2.
Proof.
  destruct (changed_path_digest_recorded_at_once
              default_config failing_sync_env init_world {[a_txt]}
              (check_for_changes default_config failing_sync_env
                 (add_log INFO cycle_start init_world)).2 a_txt)
    as (Hnow & _ & Hnext).
  - vm_compute. reflexivity.
  - apply elem_of_singleton. reflexivity.
  - split; [exact Hnow|]. apply Hnext. reflexivity.
Defined.

Lemma empty_changed_set_skips_sync_witness :
  backup_cycle default_config readable_env after_first_sweep
  = (Ok tt,
     add_log INFO no_changes
       (check_for_changes default_config readable_env
          (add_log INFO cycle_start after_first_sweep)).2)
  /\ reads_only after_first_sweep
       (add_log INFO no_changes
          (check_for_changes default_config readable_env
             (add_log INFO cycle_start after_first_sweep)).2).
Proof.
  apply (empty_changed_set_skips_sync default_config readable_env
           after_first_sweep).
  vm_compute. reflexivity.
Defined.

Lemma digest_store_never_loses_an_entry_witness :
  file_hashes
    (scheduler_cycles default_config [empty_env; empty_env]
       after_first_sweep).2 !! a_txt
  = file_hashes after_first_sweep !! a_txt.
Proof.
  destruct (digest_store_never_loses_an_entry default_config) as (_ & _ & Hkept).
  apply Hkept.
  repeat constructor; vm_compute; intros Hin; inversion Hin.
Defined.

(** ** Runs on the sample tree *)

Example first_cycle_commits_a_txt :
  map c_message (history after_first_sweep)
  = [commit_message "2024-01-01 00:00:00" {[a_txt]}]
  /\ map_to_list (file_hashes after_first_sweep)
     = [(a_txt, "900150983cd24fb0d6963f7d28e17f72"%string)]
  /\ map_to_list (mirror after_first_sweep)
     = [("backup_repo/documents/a.txt"%string, list_byte_of_string "abc")].
Proof. repeat split; vm_compute; reflexivity. Qed.

Example twelve_paths_message :
  commit_message "2024-01-01 00:00:00" twelve_paths
  = ("Автоматическое резервное копирование - 2024-01-01 00:00:00" ++ nl ++ nl
     ++ "Изменено файлов: 12" ++ nl)%string.
Proof. vm_compute. reflexivity. Qed.

Example two_paths_message :
  commit_message "2024-01-01 00:00:00" {["b.txt"; "a.txt"]}%string
  = ("Автоматическое резервное копирование - 2024-01-01 00:00:00" ++ nl ++ nl
     ++ "Изменено файлов: 2" ++ nl ++ nl ++ "Измененные файлы:" ++ nl
     ++ "- a.txt" ++ nl ++ "- b.txt" ++ nl)%string.
Proof. vm_compute. reflexivity. Qed.

(** * Further properties of the methods *)

(** ** FileHasher *)

(** X1. The result of [calculate_file_hash] is the empty string exactly
    when the file could not be read; any other result has 32 characters. *)
Theorem empty_digest_exactly_on_read_failure e file_path w :
  ((calculate_file_hash e file_path w).1 = Ok ""%string
   <-> exists exc, read_whole e file_path = Raise exc)
  /\ exists d, (calculate_file_hash e file_path w).1 = Ok d
               /\ (d = ""%string \/ String.length d = 32%nat).
Proof.
  rewrite calculate_file_hash_run. cbn [fst]. split.
  - rewrite <- file_digest_empty_iff. split; [by intros [= ->]|by intros ->].
  - exists (file_digest e file_path). split; [done|].
    unfold file_digest. destruct (read_whole e file_path); [right|by left].
    apply hexdigest_length.
Qed.

(** ** FileSelector *)

Lemma elem_of_flat_map {A B} (f : A -> list B) (l : list A) (y : B) :
  y ∈ flat_map f l <-> exists x, x ∈ l /\ y ∈ f x.
Proof.
  rewrite !list_elem_of_In, in_flat_map.
  split; intros (x & Hx & Hy); exists x; by rewrite ?list_elem_of_In in *.
Qed.

Lemma elem_of_selected cfg e root file p :
  p ∈ selected cfg e root file
  <-> p = OsPath.join root file
      /\ pattern_excluded cfg p = false
      /\ size_excluded cfg e p = false
      /\ extension_excluded cfg file = false.
Proof.
  unfold selected.
  destruct (pattern_excluded cfg (OsPath.join root file)) eqn:Hp;
    [|destruct (size_excluded cfg e (OsPath.join root file)) eqn:Hs;
      [|destruct (extension_excluded cfg file) eqn:Hx]];
    rewrite ?elem_of_nil, ?list_elem_of_singleton;
    split; try done; try (intros (-> & ? & ? & ?); congruence).
  intros ->. done.
Qed.

(** X2. [get_files_to_backup] returns exactly the paths [join(root, file)]
    of the files that [os.walk] lists under a configured directory that
    exists, and that pass the pattern, the size and the extension check. *)
Theorem get_files_to_backup_lists_exactly_the_selected_files cfg e w :
  exists files_to_backup w',
    get_files_to_backup cfg e w = (Ok files_to_backup, w')
    /\ forall p,
         p ∈ files_to_backup
         <-> exists directory root dirs files file,
               directory ∈ directories cfg
               /\ fs_exists e directory = true
               /\ (root, dirs, files) ∈ fs_walk e directory
               /\ file ∈ files
               /\ p = OsPath.join root file
               /\ pattern_excluded cfg p = false
               /\ size_excluded cfg e p = false
               /\ extension_excluded cfg file = false.
Proof.
  destruct (get_files_to_backup_run cfg e w) as (w' & Hrun & _).
  exists (candidates cfg e), w'. split; [exact Hrun|].
  intros p. unfold candidates. rewrite elem_of_flat_map. split.
  - intros (directory & Hdir & Hp). unfold walk_selected in Hp.
    destruct (fs_exists e directory) eqn:Hex; [|by apply elem_of_nil in Hp].
    apply elem_of_flat_map in Hp as ([[root dirs] files] & Hwalk & Hp).
    apply elem_of_flat_map in Hp as (file & Hfile & Hp).
    apply elem_of_selected in Hp as (-> & ? & ? & ?).
    by exists directory, root, dirs, files, file.
  - intros (directory & root & dirs & files & file
            & Hdir & Hex & Hwalk & Hfile & -> & ? & ? & ?).
    exists directory. split; [done|]. unfold walk_selected. rewrite Hex.
    apply elem_of_flat_map. exists (root, dirs, files). split; [done|].
    apply elem_of_flat_map. exists file. split; [done|].
    by apply elem_of_selected.
Qed.

Lemma for_each_visit_file_log cfg e root files :
  forall acc w,
    log (for_each files (visit_file cfg e root) acc w).2 = log w.
Proof.
  induction files as [|file files IH]; intros acc w; [done|].
  cbn [for_each]. run. rewrite visit_file_run. rewrite IH.
  by destruct (pattern_excluded cfg _).
Qed.

Lemma for_each_walk_log cfg e walked :
  forall acc w,
    log (for_each walked
           (fun '((root, dirs, files) : string * list string * list string)
                acc => for_each files (visit_file cfg e root) acc) acc w).2
    = log w.
Proof.
  induction walked as [|[[root dirs] files] walked IH]; intros acc w; [done|].
  cbn [for_each]. run.
  pose proof (for_each_visit_file_log cfg e root files acc w) as Hlog.
  destruct (for_each_appends observes _ _ (visit_file_observes cfg e root)
              files acc w) as (w1 & Hrun & _).
  rewrite Hrun in Hlog |- *. cbn [snd] in Hlog. by rewrite IH.
Qed.

(** X3. A configured directory that does not exist is not an error: the
    call returns, and what it logs is exactly one warning for each such
    directory, in the order of the configuration. *)
Theorem missing_directories_are_warned_about cfg e w :
  exists files_to_backup w',
    get_files_to_backup cfg e w = (Ok files_to_backup, w')
    /\ log w'
       = (log w ++ map missing_warning
                     (List.filter (fun d => negb (fs_exists e d))
                                  (directories cfg)))%list.
Proof.
  unfold get_files_to_backup.
  generalize (directories cfg) as ds. generalize (@nil string) as acc.
  intros acc ds. revert acc w.
  induction ds as [|d ds IH]; intros acc w.
  - eexists _, w. split; [done|]. by rewrite app_nil_r.
  - cbn [for_each]. run.
    destruct (visit_directory_observes cfg e d acc w) as (w1 & Hrun & _).
    assert (Hlog : log w1
                   = (log w ++ if fs_exists e d then []
                               else [missing_warning d])%list).
    { revert Hrun. unfold visit_directory, os_path_exists, os_walk. run.
      destruct (fs_exists e d).
      - intros Hrun.
        pose proof (for_each_walk_log cfg e (fs_walk e d) acc
                      (add_event (EvWalk d) (add_event (EvExists d) w)))
          as Hl.
        rewrite Hrun in Hl. cbn [snd] in Hl. by rewrite Hl, app_nil_r.
      - by intros [= _ <-]. }
    rewrite Hrun.
    destruct (IH (acc ++ walk_selected cfg e d)%list w1)
      as (l & w2 & Hrest & Hlog2).
    exists l, w2. split; [exact Hrest|].
    rewrite Hlog2, Hlog. cbn [List.filter].
    destruct (fs_exists e d); cbn [negb map].
    + by rewrite app_nil_r.
    + by rewrite <- app_assoc.
Qed.

Lemma contains_empty s : PyStr.contains "" s = true.
Proof. by destruct s. Qed.

(** X4. An empty string among the exclusion patterns excludes every file:
    no sweep has a candidate. *)
Theorem empty_pattern_excludes_every_file cfg e w :
  ""%string ∈ exclude_patterns cfg ->
  exists w', get_files_to_backup cfg e w = (Ok [], w').
Proof.
  intros Hin.
  destruct (get_files_to_backup_run cfg e w) as (w' & Hrun & _).
  exists w'. rewrite Hrun. do 2 f_equal.
  assert (Hall : forall root file, selected cfg e root file = []).
  { intros root file. unfold selected, pattern_excluded.
    rewrite (match_patterns_hit _ _ ""%string); [done|done|done|].
    apply contains_empty. }
  unfold candidates.
  induction (directories cfg) as [|d ds IH]; [done|].
  cbn [flat_map]. rewrite IH, app_nil_r. unfold walk_selected.
  destruct (fs_exists e d); [|done].
  induction (fs_walk e d) as [|[[root dirs] files] walked IHw]; [done|].
  cbn [flat_map]. rewrite IHw, app_nil_r.
  induction files as [|file files IHf]; [done|].
  cbn [flat_map]. by rewrite Hall, IHf.
Qed.










(** ** ChangeDetector *)

(** X8. A path is in the changed set exactly when it is a candidate, its
    hash could be computed, and the digest map held no entry for it or a
    different digest. *)
Theorem changed_set_is_the_new_or_modified_candidates cfg e w :
  exists changed w',
    check_for_changes cfg e w = (Ok changed, w')
    /\ forall p,
         p ∈ changed
         <-> p ∈ candidates cfg e
             /\ file_digest e p <> ""%string
             /\ file_hashes w !! p <> Some (file_digest e p).
Proof.
  destruct (check_for_changes_run cfg e w) as (w' & Hrun & _).
  eexists _, w'. split; [exact Hrun|].
  intros p. rewrite detect_all_changed. cbn [fst snd]. split; [|by right].
  intros [H|H]; [by apply not_elem_of_empty in H|done].
Qed.

(** X9. After a sweep the digest map holds the fresh digest of every
    candidate whose hash could be computed, and for every other path what
    it held before. *)
Theorem digest_map_after_sweep cfg e w p :
  file_hashes (check_for_changes cfg e w).2 !! p
  = if bool_decide (p ∈ candidates cfg e /\ file_digest e p <> ""%string)
    then Some (file_digest e p)
    else file_hashes w !! p.
Proof.
  destruct (check_for_changes_run cfg e w) as (w' & Hrun & Hh & _).
  rewrite Hrun. cbn [snd]. rewrite Hh. apply detect_all_hashes.
Qed.

(** X10. A sweep run again at once over the same file system reports
    nothing and leaves the digest map as the first sweep left it. *)
Theorem sweep_again_reports_nothing cfg e w :
  exists w2,
    check_for_changes cfg e (check_for_changes cfg e w).2 = (Ok ∅, w2)
    /\ file_hashes w2 = file_hashes (check_for_changes cfg e w).2.
Proof.
  destruct (check_for_changes_run cfg e w) as (w1 & Hrun1 & Hh1 & _).
  rewrite Hrun1. cbn [snd].
  destruct (check_for_changes_run cfg e w1) as (w2 & Hrun2 & Hh2 & _).
  assert (Hstored : forall p,
            p ∈ candidates cfg e -> file_digest e p <> ""%string ->
            file_hashes w1 !! p = Some (file_digest e p)).
  { intros p Hc Hd. rewrite Hh1, detect_all_hashes.
    by rewrite bool_decide_eq_true_2. }
  exists w2. split.
  - rewrite Hrun2. do 2 f_equal. apply set_eq. intros p.
    rewrite detect_all_changed. cbn [fst snd]. split.
    + intros [H|(Hc & Hd & Hne)]; [done|]. exfalso. by apply Hne, Hstored.
    + intros H. by apply not_elem_of_empty in H.
  - rewrite Hh2. apply map_eq. intros p. rewrite detect_all_hashes. cbn [fst].
    case_bool_decide as Hp; [|done]. destruct Hp. symmetry. by apply Hstored.
Qed.

(** X11. [check_for_changes] returns from every state and only looks: the
    mirror, the index, the history and the remote are untouched, and every
    call it makes is an [exists], a [walk], a [getsize] or an [open]. *)
Theorem check_for_changes_only_reads cfg e w :
  exists changed w',
    check_for_changes cfg e w = (Ok changed, w')
    /\ mirror w' = mirror w /\ index w' = index w
    /\ history w' = history w /\ remote w' = remote w
    /\ exists evs, trace w' = (trace w ++ evs)%list /\ Forall read_event evs.
Proof.
  destruct (check_for_changes_run cfg e w)
    as (w' & Hrun & _ & (Hm & Hi & Hh & Hr) & Hev).
  eexists _, w'. split; [exact Hrun|]. by repeat (split; [done|]).
Qed.

(** X12. A sweep in which a file cannot be read does not change what the
    next sweep says of that file: the verdict is the one the next sweep
    would have given without the failed sweep. *)
Theorem failed_hash_is_invisible_to_next_sweep cfg e1 e2 w p exc :
  read_whole e1 p = Raise exc ->
  exists changed_after changed_without w1 w2,
    check_for_changes cfg e2 (check_for_changes cfg e1 w).2
    = (Ok changed_after, w1)
    /\ check_for_changes cfg e2 w = (Ok changed_without, w2)
    /\ (p ∈ changed_after <-> p ∈ changed_without).
Proof.
  intros Hfail.
  assert (Hd : file_digest e1 p = ""%string).
  { apply file_digest_empty_iff. eauto. }
  assert (Hkept : file_hashes (check_for_changes cfg e1 w).2 !! p
                  = file_hashes w !! p).
  { destruct (check_for_changes_run cfg e1 w) as (wa & Hrun & Hh & _).
    rewrite Hrun. cbn [snd]. rewrite Hh, detect_all_hashes. cbn [fst].
    rewrite bool_decide_eq_false_2; [done|]. by intros [_ ?]. }
  destruct (check_for_changes_run cfg e2 (check_for_changes cfg e1 w).2)
    as (w1 & Hrun1 & _).
  destruct (check_for_changes_run cfg e2 w) as (w2 & Hrun2 & _).
  eexists _, _, w1, w2. split; [exact Hrun1|]. split; [exact Hrun2|].
  rewrite !detect_all_changed. cbn [fst snd]. by rewrite Hkept.
Qed.

(** X13. A file hashed in one sweep and hashed again, with another digest,
    in the next sweep in which it is a candidate, is in the changed set of
    that next sweep. *)
Theorem modified_file_is_in_next_changed_set cfg e1 e2 w p :
  p ∈ candidates cfg e1 ->
  file_digest e1 p <> ""%string ->
  p ∈ candidates cfg e2 ->
  file_digest e2 p <> ""%string ->
  file_digest e2 p <> file_digest e1 p ->
  exists changed w2,
    check_for_changes cfg e2 (backup_cycle cfg e1 w).2 = (Ok changed, w2)
    /\ p ∈ changed.
Proof.
  intros Hc1 Hd1 Hc2 Hd2 Hne.
  destruct (backup_cycle_run cfg e1 w) as (w1 & Hrun1 & Hh1).
  rewrite Hrun1. cbn [snd].
  destruct (check_for_changes_run cfg e2 w1) as (w2 & Hrun2 & _).
  eexists _, w2. split; [exact Hrun2|].
  apply detect_all_changed. right. cbn [fst]. split; [done|]. split; [done|].
  rewrite Hh1, detect_all_hashes. rewrite bool_decide_eq_true_2 by done.
  congruence.
Qed.

(** ** SnapshotSync *)

#[global] Instance copies_only_preorder : PreOrder copies_only.
Proof.
  split.
  - intros w. repeat (split; [done|]). exists []. by rewrite app_nil_r.
  - intros w1 w2 w3 (?&?&?&?& evs1 & Ht1 & Hf1) (?&?&?&?& evs2 & Ht2 & Hf2).
    repeat (split; [congruence|]).
    exists (evs1 ++ evs2)%list. split.
    + by rewrite Ht2, Ht1, app_assoc.
    + by apply Forall_app.
Qed.

Ltac trace_grows :=
  eexists; split;
  [ cbn [trace add_event add_log set_mirror set_index set_history set_remote];
    rewrite <- ?app_assoc; first [reflexivity | symmetry; apply app_nil_r]
  | repeat constructor ].

Lemma copy_file_run cfg e file_path w :
  exists w',
    copy_file e (OsPath.parse (backup_repo_path cfg)) file_path tt w
    = (Ok tt, w')
    /\ mirror w' = mirror_step cfg e (mirror w) file_path
    /\ copies_only w w'.
Proof.
  unfold copy_file, mirror_step, copy_plan, copy_target, mkdir_parents,
    shutil_copy2, copies_only. run.
  destruct (OsPath.is_absolute (OsPath.parse file_path));
    [destruct (relative_to _ _) as [rel|exc]|]; cbn beta iota;
    try (eexists; split; [reflexivity|]; split; [reflexivity|];
         repeat (split; [reflexivity|]); trace_grows);
    (destruct (fs_mkdir e _) as [[]|exc]; cbn beta iota;
     [destruct (fs_copy2 e file_path _) as [content|exc]; cbn beta iota|]);
    eexists; (split; [reflexivity|]); (split; [reflexivity|]);
    repeat (split; [reflexivity|]); trace_grows.
Qed.

Lemma copy_files_to_repo_run cfg e changed_files w :
  exists w',
    copy_files_to_repo cfg e changed_files w = (Ok tt, w')
    /\ mirror w' = foldl (mirror_step cfg e) (mirror w) (elements changed_files)
    /\ copies_only w w'.
Proof.
  unfold copy_files_to_repo.
  generalize (elements changed_files) as l. intros l. revert w.
  induction l as [|p l IH]; intros w; cbn [for_each foldl].
  - exists w. split; [done|]. split; [done|]. reflexivity.
  - destruct (copy_file_run cfg e p w) as (w1 & Hrun & Hm & Hc).
    destruct (IH w1) as (w2 & Hrest & Hm2 & Hc2).
    exists w2. run. rewrite Hrun. split; [exact Hrest|].
    split; [by rewrite Hm2, Hm|]. by etrans.
Qed.

Lemma mirror_fold_lookup cfg e l : forall m dst,
  foldl (mirror_step cfg e) m l !! dst = m !! dst
  \/ exists q content,
       q ∈ l /\ copy_plan cfg e q = Ok (dst, content)
       /\ foldl (mirror_step cfg e) m l !! dst = Some content.
Proof.
  induction l as [|p l IH]; intros m dst; cbn [foldl]; [by left|].
  destruct (IH (mirror_step cfg e m p) dst) as [Heq|(q & c & Hq & Hplan & Hl)].
  - rewrite Heq. unfold mirror_step.
    destruct (copy_plan cfg e p) as [[d c]|exc] eqn:Hplan; [|by left].
    destruct (decide (d = dst)) as [->|Hne].
    + right. exists p, c. rewrite lookup_insert_eq.
      split; [by left|]. by split.
    + left. by rewrite lookup_insert_ne.
  - right. exists q, c. split; [by right|]. by split.
Qed.

Lemma mirror_fold_written cfg e l : forall m p dst content,
  p ∈ l -> copy_plan cfg e p = Ok (dst, content) ->
  exists q content',
    q ∈ l /\ copy_plan cfg e q = Ok (dst, content')
    /\ foldl (mirror_step cfg e) m l !! dst = Some content'.
Proof.
  induction l as [|x l IH]; intros m p dst content Hin Hplan;
    [by inversion Hin|].
  cbn [foldl]. apply elem_of_cons in Hin as [->|Hin].
  - destruct (mirror_fold_lookup cfg e l (mirror_step cfg e m x) dst)
      as [Heq|(q & c & Hq & Hplanq & Hl)].
    + exists x, content. split; [by left|]. split; [done|].
      rewrite Heq. unfold mirror_step. rewrite Hplan.
      apply lookup_insert_eq.
    + exists q, c. split; [by right|]. by split.
  - destruct (IH (mirror_step cfg e m x) p dst content Hin Hplan)
      as (q & c & Hq & Hplanq & Hl).
    exists q, c. split; [by right|]. by split.
Qed.

(** X14. [copy_files_to_repo] never raises, and a file that cannot be
    copied does not stop the others: after the call the mirror holds, at
    the destination of every changed file whose own copy goes through, the
    bytes copied there from a changed file. *)
Theorem copy_failure_does_not_stop_the_other_files cfg e changed_files w :
  exists w',
    copy_files_to_repo cfg e changed_files w = (Ok tt, w')
    /\ forall p dst content,
         p ∈ changed_files ->
         copy_plan cfg e p = Ok (dst, content) ->
         exists q content',
           q ∈ changed_files /\ copy_plan cfg e q = Ok (dst, content')
           /\ mirror w' !! dst = Some content'.
Proof.
  destruct (copy_files_to_repo_run cfg e changed_files w)
    as (w' & Hrun & Hm & _).
  exists w'. split; [exact Hrun|].
  intros p dst content Hin Hplan. rewrite Hm.
  destruct (mirror_fold_written cfg e (elements changed_files) (mirror w)
              p dst content) as (q & c & Hq & Hplanq & Hl);
    [by apply elem_of_elements|done|].
  exists q, c. split; [by apply elem_of_elements|]. by split.
Qed.

Lemma copy_plan_under_backup_path cfg e p dst content :
  copy_plan cfg e p = Ok (dst, content) ->
  exists rel,
    dst = OsPath.to_string
            (OsPath.Path
               (OsPath.anchored (OsPath.parse (backup_repo_path cfg)))
               (OsPath.parts (OsPath.parse (backup_repo_path cfg)) ++ rel)).
Proof.
  unfold copy_plan, copy_target, relative_to, OsPath.is_absolute.
  set (repo := OsPath.parse (backup_repo_path cfg)).
  set (src := OsPath.parse p).
  assert (Hdiv : forall rel, OsPath.div repo (OsPath.Path false rel)
                 = OsPath.Path (OsPath.anchored repo) (OsPath.parts repo ++ rel)).
  { done. }
  destruct (OsPath.anchored src) eqn:Hanch.
  - destruct (Bool.eqb _ _ && bool_decide _); [|done]. rewrite Hdiv.
    destruct (fs_mkdir e _); [|done]. destruct (fs_copy2 e p _); [|done].
    intros [= <- _]. eauto.
  - destruct src as [a ps]. cbn in Hanch. subst a. rewrite Hdiv.
    destruct (fs_mkdir e _); [|done]. destruct (fs_copy2 e p _); [|done].
    intros [= <- _]. eauto.
Qed.

(** X15. [copy_files_to_repo] removes nothing from the mirror, and every
    entry it adds or changes is at a path made of the components of the
    backup directory followed by further components. *)
Theorem copy_only_writes_under_the_backup_path cfg e changed_files w :
  exists w',
    copy_files_to_repo cfg e changed_files w = (Ok tt, w')
    /\ (forall dst, is_Some (mirror w !! dst) -> is_Some (mirror w' !! dst))
    /\ forall dst,
         mirror w' !! dst <> mirror w !! dst ->
         exists rel,
           dst = OsPath.to_string
                   (OsPath.Path
                      (OsPath.anchored (OsPath.parse (backup_repo_path cfg)))
                      (OsPath.parts (OsPath.parse (backup_repo_path cfg))
                       ++ rel)).
Proof.
  destruct (copy_files_to_repo_run cfg e changed_files w)
    as (w' & Hrun & Hm & _).
  exists w'. split; [exact Hrun|]. rewrite Hm. split.
  - intros dst Hsome.
    destruct (mirror_fold_lookup cfg e (elements changed_files) (mirror w) dst)
      as [->|(_ & c & _ & _ & ->)]; eauto.
  - intros dst Hne.
    destruct (mirror_fold_lookup cfg e (elements changed_files) (mirror w) dst)
      as [Heq|(q & c & _ & Hplan & _)]; [done|].
    by eapply copy_plan_under_backup_path.
Qed.

(** X16. A changed file given by an absolute path that does not lie under
    the working directory is not copied: [relative_to] raises, the error is
    logged, and neither [mkdir] nor [copy2] is called for it. *)
Theorem absolute_path_outside_cwd_is_not_copied cfg e file_path w :
  PyStr.startswith file_path "/" = true ->
  ~ (OsPath.parts (OsPath.parse (fs_cwd e))
       `prefix_of` OsPath.parts (OsPath.parse file_path)) ->
  exists message,
    copy_file e (OsPath.parse (backup_repo_path cfg)) file_path tt w
    = (Ok tt, add_log ERROR message w).
Proof.
  intros Habs Hout. unfold copy_file, relative_to. run.
  unfold OsPath.is_absolute. cbn [OsPath.parse OsPath.anchored].
  rewrite Habs. rewrite (bool_decide_eq_false_2 _ Hout), andb_false_r.
  cbn beta iota. eauto.
Qed.

Lemma create_commit_run e changed_files w :
  exists w',
    create_commit e changed_files w = (Ok tt, w')
    /\ file_hashes w' = file_hashes w /\ mirror w' = mirror w
    /\ remote w' = remote w
    /\ index w' = match git_add_result e with
                  | Ok _ => mirror w
                  | Raise _ => index w
                  end
    /\ history w' = (history w ++ new_commits e changed_files (mirror w))%list
    /\ exists evs, trace w' = (trace w ++ evs)%list /\ Forall commit_event evs.
Proof.
  unfold create_commit, git_add_all, index_commit, new_commits. run.
  destruct (git_add_result e) as [[]|exc]; cbn beta iota;
    [destruct (git_commit_result e) as [[]|exc]; cbn beta iota|];
    eexists; (split; [reflexivity|]);
    cbn [file_hashes mirror remote index history add_log add_event set_index
         set_history];
    rewrite ?app_nil_r; repeat (split; [reflexivity|]); trace_grows.
Qed.

(** X17. [create_commit] never raises and never touches the mirror or the
    remote. It adds one commit, with the message of [commit_message] and
    the mirror as its tree, when both [git add] and the commit go through,
    and no commit otherwise; the index is the mirror once [git add] went
    through. *)
Theorem create_commit_adds_one_commit_or_none e changed_files w :
  exists w',
    create_commit e changed_files w = (Ok tt, w')
    /\ mirror w' = mirror w
    /\ remote w' = remote w
    /\ index w' = match git_add_result e with
                  | Ok _ => mirror w
                  | Raise _ => index w
                  end
    /\ history w'
       = (history w ++
          match git_add_result e, git_commit_result e with
          | Ok _, Ok _ =>
              [Commit (commit_message (clock_now e) changed_files) (mirror w)]
          | _, _ => []
          end)%list.
Proof.
  destruct (create_commit_run e changed_files w)
    as (w' & Hrun & _ & Hm & Hr & Hi & Hh & _).
  exists w'. by repeat (split; [done|]).
Qed.

Lemma push_to_remote_run cfg e w :
  exists w',
    push_to_remote cfg e w = (Ok tt, w')
    /\ file_hashes w' = file_hashes w /\ mirror w' = mirror w
    /\ index w' = index w /\ history w' = history w
    /\ remote w' = remote_after_push cfg e (remote w) (history w)
    /\ trace w' = (trace w ++ if String.eqb (remote_url cfg) "" then []
                              else [EvPush])%list.
Proof.
  unfold push_to_remote, origin_push, remote_after_push. run.
  destruct (String.eqb (remote_url cfg) "");
    [|destruct (git_push_result e) as [[]|exc]; cbn beta iota];
    eexists; (split; [reflexivity|]);
    cbn [file_hashes mirror remote index history trace add_log add_event
         set_remote];
    rewrite ?app_nil_r; by repeat (split; [reflexivity|]).
Qed.


Lemma elements_empty_iff (X : gset string) : elements X = [] <-> X = ∅.
Proof.
  split; [|intros ->; apply elements_empty].
  intros H. apply set_eq. intros x. rewrite <- elem_of_elements, H.
  split; [by intros ?%elem_of_nil|by intros ?%not_elem_of_empty].
Qed.

(** One whole cycle, step by step. *)
Lemma backup_cycle_steps cfg e w :
  exists changed w1 w',
    check_for_changes cfg e (add_log INFO cycle_start w) = (Ok changed, w1)
    /\ backup_cycle cfg e w = (Ok tt, w')
    /\ file_hashes w' = file_hashes w1
    /\ mirror w' = foldl (mirror_step cfg e) (mirror w) (elements changed)
    /\ history w'
       = (history w ++ if bool_decide (changed = ∅) then []
                       else new_commits e changed (mirror w'))%list
    /\ remote w'
       = (if bool_decide (changed = ∅) then remote w
          else remote_after_push cfg e (remote w) (history w'))
    /\ exists evs,
         trace w' = (trace w ++ evs)%list
         /\ (changed = ∅ -> Forall read_event evs)
         /\ (remote_url cfg = ""%string -> EvPush ∉ evs).
Proof.
  destruct (check_for_changes_run cfg e (add_log INFO cycle_start w))
    as (w1 & Hrun & _ & (Hm1 & Hi1 & Hh1 & Hr1) & (evs1 & Ht1 & Hf1)).
  cbn [add_log mirror index history remote trace] in *.
  set (changed := (detect_all e (candidates cfg e)
                     (file_hashes (add_log INFO cycle_start w), ∅)).2) in *.
  exists changed, w1.
  unfold backup_cycle. run. unfold cycle_start in Hrun. rewrite Hrun.
  case_bool_decide as Hempty; cbn beta iota.
  { eexists. split; [done|]. split; [reflexivity|].
    cbn [add_log file_hashes mirror history remote trace].
    rewrite Hempty, elements_empty, app_nil_r. cbn [foldl].
    repeat (split; [done|]). exists evs1. split; [done|]. split; [done|].
    intros _ Hin. by apply (proj1 (Forall_forall _ _) Hf1) in Hin. }
  destruct (copy_files_to_repo_run cfg e changed
              (add_log INFO ("Обнаружено изменений: " ++ pretty (size changed))
                 w1)) as (w2 & Hcopy & Hm2 & (Hf2 & Hi2 & Hh2 & Hr2 & evs2 & Ht2 & Hc2)).
  destruct (create_commit_run e changed w2)
    as (w3 & Hcommit & Hf3 & Hm3 & Hr3 & Hi3 & Hh3 & evs3 & Ht3 & Hc3).
  destruct (push_to_remote_run cfg e w3)
    as (w4 & Hpush & Hf4 & Hm4 & Hi4 & Hh4 & Hr4 & Ht4).
  rewrite Hcopy, Hcommit, Hpush.
  cbn [add_log file_hashes mirror index history remote trace] in *.
  eexists. split; [done|]. split; [reflexivity|].
  cbn [add_log file_hashes mirror index history remote trace].
  split; [congruence|].
  split; [by rewrite Hm4, Hm3, Hm2, Hm1|].
  split; [by rewrite Hh4, Hh3, Hh2, Hh1, Hm4, Hm3|].
  split; [by rewrite Hr4, Hr3, Hr2, Hr1, Hh4|].
  exists (evs1 ++ evs2 ++ evs3 ++
          if String.eqb (remote_url cfg) "" then [] else [EvPush])%list.
  split; [by rewrite Ht4, Ht3, Ht2, Ht1, <- !app_assoc|].
  split; [done|].
  intros Hurl. rewrite Hurl. cbn. rewrite app_nil_r.
  rewrite !elem_of_app. intros [Hin|[Hin|Hin]].
  - by apply (proj1 (Forall_forall _ _) Hf1) in Hin.
  - by apply (proj1 (Forall_forall _ _) Hc2) in Hin.
  - by apply (proj1 (Forall_forall _ _) Hc3) in Hin.
Qed.

(** X19. [backup_cycle] never raises, whatever the file system and the
    backend answer. It adds no commit when the changed set is empty, and
    otherwise one commit at most, made when both [git add] and the commit go
    through, even if some or all copies failed; that commit's tree is the
    mirror as the cycle leaves it. *)
Theorem cycle_commits_at_most_once cfg e w :
  exists changed w1 w',
    check_for_changes cfg e (add_log INFO cycle_start w) = (Ok changed, w1)
    /\ backup_cycle cfg e w = (Ok tt, w')
    /\ history w'
       = (history w ++
          if bool_decide (changed = ∅) then []
          else match git_add_result e, git_commit_result e with
               | Ok _, Ok _ =>
                   [Commit (commit_message (clock_now e) changed) (mirror w')]
               | _, _ => []
               end)%list.
Proof.
  destruct (backup_cycle_steps cfg e w)
    as (changed & w1 & w' & Hcheck & Hrun & _ & _ & Hh & _).
  by exists changed, w1, w'.
Qed.

(** ** Cycles one after another *)

(** X20. With an empty [remote_url] no number of cycles ever pushes: the
    remote stays as it was and no push call is made. *)
Theorem no_remote_url_means_no_push cfg es :
  remote_url cfg = ""%string ->
  forall w,
  exists w',
    scheduler_cycles cfg es w = (Ok tt, w')
    /\ remote w' = remote w
    /\ exists evs, trace w' = (trace w ++ evs)%list /\ EvPush ∉ evs.
Proof.
  intros Hurl. induction es as [|e es IH]; intros w; cbn [scheduler_cycles].
  - exists w. split; [done|]. split; [done|]. exists [].
    split; [by rewrite app_nil_r|]. apply not_elem_of_nil.
  - destruct (backup_cycle_steps cfg e w)
      as (changed & w0 & w1 & _ & Hrun & _ & _ & _ & Hr & evs1 & Ht1 & _ & Hp1).
    destruct (IH w1) as (w2 & Hrest & Hr2 & evs2 & Ht2 & Hp2).
    exists w2. run. rewrite Hrun. split; [exact Hrest|]. split.
    + rewrite Hr2, Hr. unfold remote_after_push. rewrite Hurl. cbn.
      by case_bool_decide.
    + exists (evs1 ++ evs2)%list. split; [by rewrite Ht2, Ht1, app_assoc|].
      rewrite elem_of_app. intros [?|?]; [by apply Hp1|done].
Qed.

Lemma detect_all_settled e files : forall h changed,
  (forall p, p ∈ files -> file_digest e p <> ""%string ->
             h !! p = Some (file_digest e p)) ->
  detect_all e files (h, changed) = (h, changed).
Proof.
  unfold detect_all.
  induction files as [|x files IH]; intros h changed Hstored; [done|].
  cbn [foldl].
  destruct (detect_cases e (h, changed) x) as [[-> _]|(_ & Hd & Hne)].
  - apply IH. intros p Hp. apply Hstored. by right.
  - exfalso. apply Hne. cbn [fst]. apply Hstored; [by left|done].
Qed.

Lemma backup_cycle_empty cfg e w w1 :
  check_for_changes cfg e (add_log INFO cycle_start w) = (Ok ∅, w1) ->
  backup_cycle cfg e w = (Ok tt, add_log INFO no_changes w1).
Proof.
  intros Hrun. unfold backup_cycle. run.
  unfold cycle_start in Hrun. rewrite Hrun.
  by rewrite bool_decide_eq_true_2.
Qed.

(** X21. After any cycle, a cycle over a file system with the same
    candidates and the same digests copies, stages, commits and pushes
    nothing and leaves the digest map alone, whether or not the copy, the
    commit and the push of the first cycle went through. *)
Theorem cycle_over_unchanged_files_does_nothing cfg e1 e2 w :
  same_files cfg e1 e2 ->
  exists w2,
    backup_cycle cfg e2 (backup_cycle cfg e1 w).2 = (Ok tt, w2)
    /\ file_hashes w2 = file_hashes (backup_cycle cfg e1 w).2
    /\ mirror w2 = mirror (backup_cycle cfg e1 w).2
    /\ index w2 = index (backup_cycle cfg e1 w).2
    /\ history w2 = history (backup_cycle cfg e1 w).2
    /\ remote w2 = remote (backup_cycle cfg e1 w).2
    /\ exists evs,
         trace w2 = (trace (backup_cycle cfg e1 w).2 ++ evs)%list
         /\ Forall read_event evs.
Proof.
  intros [Hcand Hdig].
  destruct (backup_cycle_run cfg e1 w) as (w1 & Hrun1 & Hh1).
  rewrite Hrun1. cbn [snd].
  destruct (check_for_changes_run cfg e2 (add_log INFO cycle_start w1))
    as (w2 & Hrun2 & Hh2 & (Hm & Hi & Hh & Hr) & (evs & Ht & Hf)).
  change (file_hashes (add_log INFO cycle_start w1)) with (file_hashes w1) in *.
  rewrite detect_all_settled in Hrun2, Hh2.
  2,3: intros p Hp Hd; rewrite Hh1, detect_all_hashes, Hcand, Hdig;
       by rewrite bool_decide_eq_true_2.
  cbn [fst snd] in *.
  exists (add_log INFO no_changes w2).
  split; [by apply backup_cycle_empty|].
  cbn [add_log file_hashes mirror index history remote trace] in *.
  repeat (split; [done|]). by exists evs.
Qed.

(** X22. Over any number of cycles, whatever fails in them, the program
    returns normally, the local history only grows at its end, and no
    entry of the mirror is ever removed. *)
Theorem history_and_mirror_only_grow cfg es :
  forall w,
  exists w',
    scheduler_cycles cfg es w = (Ok tt, w')
    /\ history w `prefix_of` history w'
    /\ forall dst, is_Some (mirror w !! dst) -> is_Some (mirror w' !! dst).
Proof.
  induction es as [|e es IH]; intros w; cbn [scheduler_cycles].
  - by exists w.
  - destruct (backup_cycle_steps cfg e w)
      as (changed & w0 & w1 & _ & Hrun & _ & Hm & Hh & _).
    destruct (IH w1) as (w2 & Hrest & Hh2 & Hm2).
    exists w2. run. rewrite Hrun. split; [exact Hrest|]. split.
    + etrans; [|exact Hh2]. rewrite Hh. by apply prefix_app_r.
    + intros dst Hsome. apply Hm2. rewrite Hm.
      destruct (mirror_fold_lookup cfg e (elements changed) (mirror w) dst)
        as [->|(_ & c & _ & _ & ->)]; eauto.
Qed.

(** ** Start-up *)

Ltac boot :=
  unfold Startup.os_path_exists, Startup.json_load, Startup.json_dump,
    Startup.put_doc, Startup.print, Startup.logger, Startup.set_repo,
    Startup.set_origin, Startup.called, Startup.gets, Startup.lift,
    Startup.try_except, Startup.try_except_invalid_repo;
  unfold mbind, Startup.Boot_bind, mret, Startup.Boot_ret;
  cbn beta iota delta [Startup.docs Startup.stdout Startup.repo Startup.origin
                       Startup.logged Startup.calls].

Ltac bsimpl :=
  cbn beta iota delta [Startup.docs Startup.stdout Startup.repo Startup.origin
                       Startup.logged Startup.calls].

Ltac bsteps H := repeat progress (bsimpl; rewrite ?H).

Lemma dict_set_new items key value :
  Startup.has_key key items = false ->
  Startup.dict_set items key value = (items ++ [(key, value)])%list.
Proof.
  unfold Startup.has_key.
  induction items as [|[k v] items IH]; cbn; [done|].
  intros [Hk Hrest]%orb_false_iff. rewrite Hk. by rewrite IH.
Qed.

Lemma has_key_app key items more :
  Startup.has_key key (items ++ more)
  = Startup.has_key key items || Startup.has_key key more.
Proof. unfold Startup.has_key. apply existsb_app. Qed.

Lemma has_key_elem_of key items :
  Startup.has_key key items = true <-> key ∈ items.*1.
Proof.
  unfold Startup.has_key. rewrite existsb_exists, list_elem_of_fmap.
  split.
  - intros ([k v] & Hin & Heq%String.eqb_eq). cbn in Heq. subst.
    exists (key, v). split; [done|]. by apply list_elem_of_In.
  - intros ([k v] & -> & Hin). exists (k, v).
    split; [by apply list_elem_of_In|apply String.eqb_refl].
Qed.

(** Merging into a [dict]: the items of the file stay as they are and in
    their order, and the defaults whose key the file lacks follow. *)
Lemma merge_defaults_dict defaults : forall items,
  NoDup defaults.*1 ->
  Startup.merge_defaults defaults (Startup.JDict items)
  = Startup.Returns
      (Startup.JDict
         (items ++ List.filter (fun kv => negb (Startup.has_key kv.1 items))
                               defaults)).
Proof.
  induction defaults as [|[k v] defaults IH]; intros items Hnd.
  - cbn. by rewrite app_nil_r.
  - apply NoDup_cons in Hnd as [Hk Hnd].
    cbn [Startup.merge_defaults Startup.not_in Startup.setitem List.filter fst].
    destruct (Startup.has_key k items) eqn:Hhas; cbn [negb].
    + by apply IH.
    + rewrite dict_set_new by done. rewrite IH by done.
      rewrite <- app_assoc. do 3 f_equal. cbn [app]. f_equal.
      apply filter_ext_in. intros [k' v'] Hin. cbn [fst].
      rewrite has_key_app, orb_comm. cbn -[String.eqb].
      destruct (String.eqb_spec k k') as [->|_]; [|by rewrite orb_false_l].
      exfalso. apply Hk. apply list_elem_of_fmap. exists (k', v').
      split; [done|]. by apply list_elem_of_In.
Qed.

Lemma default_items_NoDup : NoDup Startup.default_items.*1.
Proof. apply (bool_decide_unpack _). vm_compute. exact I. Qed.

Lemma load_config_fills_in_missing_defaults_aux b config_file items st :
  Startup.docs st !! config_file
  = Some (Startup.Returns (Startup.JDict items)) ->
  exists st',
    Startup.load_config b config_file st
    = (Startup.Returns
         (Startup.JDict
            (items ++ List.filter
                        (fun kv => negb (Startup.has_key kv.1 items))
                        Startup.default_items)), st')
    /\ Startup.docs st' = Startup.docs st.
Proof.
  intros Hdoc. unfold Startup.load_config. boot. rewrite Hdoc.
  rewrite bool_decide_eq_true_2 by eauto. bsteps Hdoc.
  rewrite merge_defaults_dict by apply default_items_NoDup.
  eexists. split; reflexivity.
Qed.

(** X23. When the configuration file holds a JSON object, [load_config]
    returns the items of the file, unchanged and in their order, followed
    by the defaults whose key the file lacks; it prints nothing and does
    not write the file. *)
Theorem load_config_fills_in_missing_defaults b config_file items st :
  Startup.docs st !! config_file
  = Some (Startup.Returns (Startup.JDict items)) ->
  exists st',
    Startup.load_config b config_file st
    = (Startup.Returns
         (Startup.JDict
            (items ++ List.filter
                        (fun kv => negb (Startup.has_key kv.1 items))
                        Startup.default_items)), st')
    /\ Startup.docs st' = Startup.docs st
    /\ Startup.stdout st' = Startup.stdout st
    /\ Startup.calls st'
       = (Startup.calls st ++ [Startup.CallExists config_file;
                               Startup.CallLoad config_file])%list.
Proof.
  intros Hdoc. unfold Startup.load_config. boot. rewrite Hdoc.
  rewrite bool_decide_eq_true_2 by eauto. bsteps Hdoc.
  rewrite merge_defaults_dict by apply default_items_NoDup.
  eexists. split; [reflexivity|]. bsimpl. by rewrite <- app_assoc.
Qed.


(** X25. A configuration that [load_config] has returned is returned again
    by the next call, which leaves the file as it is and, as the file now
    holds an object, does not write it. *)
Theorem load_config_again_returns_the_same b config_file st config st' :
  Startup.load_config b config_file st = (Startup.Returns config, st') ->
  exists st'',
    Startup.load_config b config_file st' = (Startup.Returns config, st'')
    /\ Startup.docs st'' = Startup.docs st'.
Proof.
  unfold Startup.load_config at 1. boot.
  assert (Hdefault : forall d,
            d !! config_file
            = Some (Startup.Returns (Startup.JDict Startup.default_items)) ->
            forall st0, Startup.docs st0 = d ->
            exists st'',
              Startup.load_config b config_file st0
              = (Startup.Returns (Startup.JDict Startup.default_items), st'')
              /\ Startup.docs st'' = d).
  { intros d Hd st0 <-.
    destruct (load_config_fills_in_missing_defaults_aux b config_file
                Startup.default_items st0 Hd) as (st'' & Hrun & Hdocs).
    exists st''. split; [|done]. rewrite Hrun. reflexivity. }
  case_bool_decide as Hpresent; bsimpl.
  - destruct (Startup.docs st !! config_file) as [[x|exc]|] eqn:Hdoc;
      bsimpl.
    + destruct (Startup.merge_defaults Startup.default_items x) as [c|exc]
        eqn:Hmerge; bsimpl.
      * intros [= -> <-]. unfold Startup.load_config. boot. rewrite Hdoc.
        rewrite bool_decide_eq_true_2 by eauto. bsteps Hdoc.
        rewrite Hmerge. eexists. split; reflexivity.
      * destruct (Startup.writable b config_file) as [[]|]; bsimpl; [|done].
        intros [= <- <-]. eapply Hdefault; [|reflexivity].
        bsimpl. apply lookup_insert_eq.
    + destruct (Startup.writable b config_file) as [[]|]; bsimpl; [|done].
      intros [= <- <-]. eapply Hdefault; [|reflexivity].
      bsimpl. apply lookup_insert_eq.
    + by destruct Hpresent.
  - destruct (Startup.writable b config_file) as [[]|]; bsimpl; [|done].
    intros [= <- <-]. eapply Hdefault; [|reflexivity].
    bsimpl. apply lookup_insert_eq.
Qed.

(** X26. [init_git_repo] creates a repository only after
    [InvalidGitRepositoryError]. When opening succeeds the repository is
    used as it is, and the remote is not registered even if [remote_url] is
    set; any other exception of the opening, such as the one for a
    directory that does not exist, reaches the caller with nothing made. *)
Theorem init_git_repo_creates_only_after_invalid_repository b cfg st :
  (forall msg, Startup.repo_open b (backup_repo_path cfg)
               <> Startup.Raises (Startup.InvalidGitRepositoryError msg)) ->
  exists st',
    Startup.init_git_repo b cfg st
    = (match Startup.repo_open b (backup_repo_path cfg) with
       | Startup.Returns _ => Startup.Returns tt
       | Startup.Raises exc => Startup.Raises exc
       end, st')
    /\ Startup.calls st'
       = (Startup.calls st ++ [Startup.CallRepo (backup_repo_path cfg)])%list
    /\ Startup.origin st' = Startup.origin st
    /\ Startup.repo st'
       = match Startup.repo_open b (backup_repo_path cfg) with
         | Startup.Returns _ => Some (backup_repo_path cfg)
         | Startup.Raises _ => Startup.repo st
         end.
Proof.
  intros Hvalid. unfold Startup.init_git_repo. boot.
  destruct (Startup.repo_open b (backup_repo_path cfg)) as [[]|exc];
    bsimpl; [by eexists|].
  destruct exc; try (by eexists). by destruct (Hvalid msg).
Qed.

(** X27. After [InvalidGitRepositoryError], when the directory and the
    repository can be made, [init_git_repo] returns normally whatever
    becomes of the remote: the remote is registered when [remote_url] is
    not empty and [create_remote] goes through, and a failure of
    [create_remote] is not raised. *)
Theorem failed_remote_registration_is_not_raised b cfg st msg :
  Startup.repo_open b (backup_repo_path cfg)
  = Startup.Raises (Startup.InvalidGitRepositoryError msg) ->
  Startup.makedirs b (backup_repo_path cfg) = Startup.Returns tt ->
  Startup.repo_init b (backup_repo_path cfg) = Startup.Returns tt ->
  exists st',
    Startup.init_git_repo b cfg st = (Startup.Returns tt, st')
    /\ Startup.repo st' = Some (backup_repo_path cfg)
    /\ Startup.origin st'
       = if String.eqb (remote_url cfg) "" then Startup.origin st
         else match Startup.create_remote b (remote_url cfg) with
              | Startup.Returns _ => Some (remote_url cfg)
              | Startup.Raises _ => Startup.origin st
              end.
Proof.
  intros Hopen Hdirs Hinit. unfold Startup.init_git_repo. boot.
  rewrite Hopen. bsimpl. rewrite Hdirs. bsimpl. rewrite Hinit. bsimpl.
  destruct (String.eqb (remote_url cfg) ""); bsimpl; [by eexists|].
  destruct (Startup.create_remote b (remote_url cfg)) as [[]|exc]; bsimpl;
    by eexists.
Qed.

(** ** Instances of the further properties *)

Lemma empty_pattern_excludes_every_file_witness :
  exists w',
    get_files_to_backup blank_pattern_config readable_env init_world
    = (Ok [], w').
Proof.
  apply (empty_pattern_excludes_every_file blank_pattern_config readable_env
           init_world).
  apply (bool_decide_unpack _). vm_compute. exact I.
Defined.




Lemma failed_hash_is_invisible_to_next_sweep_witness :
  exists changed_after changed_without w1 w2,
    check_for_changes default_config readable_env
      (check_for_changes default_config denied_env init_world).2
    = (Ok changed_after, w1)
    /\ check_for_changes default_config readable_env init_world
       = (Ok changed_without, w2)
    /\ (a_txt ∈ changed_after <-> a_txt ∈ changed_without).
Proof.
  apply (failed_hash_is_invisible_to_next_sweep default_config denied_env
           readable_env init_world a_txt (OSError "Permission denied")).
  vm_compute. reflexivity.
Defined.

Lemma modified_file_is_in_next_changed_set_witness :
  exists changed w2,
    check_for_changes default_config edited_env
      (backup_cycle default_config readable_env init_world).2
    = (Ok changed, w2)
    /\ a_txt ∈ changed.
Proof.
  apply (modified_file_is_in_next_changed_set default_config readable_env
           edited_env init_world a_txt).
  - apply (bool_decide_unpack _). vm_compute. exact I.
  - vm_compute. discriminate.
  - apply (bool_decide_unpack _). vm_compute. exact I.
  - vm_compute. discriminate.
  - vm_compute. discriminate.
Defined.

Lemma absolute_path_outside_cwd_is_not_copied_witness :
  exists message,
    copy_file readable_env (OsPath.parse (backup_repo_path default_config))
      "/etc/hosts" tt init_world
    = (Ok tt, add_log ERROR message init_world).
Proof.
  apply (absolute_path_outside_cwd_is_not_copied default_config readable_env
           "/etc/hosts" init_world).
  - reflexivity.
  - intros H. apply (bool_decide_pack _) in H. vm_compute in H. exact H.
Defined.

Lemma no_remote_url_means_no_push_witness :
  exists w',
    scheduler_cycles default_config [readable_env; edited_env] init_world
    = (Ok tt, w')
    /\ remote w' = remote init_world
    /\ exists evs, trace w' = (trace init_world ++ evs)%list /\ EvPush ∉ evs.
Proof.
  apply (no_remote_url_means_no_push default_config
           [readable_env; edited_env]).
  reflexivity.
Defined.

Lemma cycle_over_unchanged_files_does_nothing_witness :
  exists w2,
    backup_cycle remote_config readable_env
      (backup_cycle remote_config failing_sync_env init_world).2
    = (Ok tt, w2)
    /\ mirror w2 = ∅ /\ history w2 = [].
Proof.
  destruct (cycle_over_unchanged_files_does_nothing remote_config
              failing_sync_env readable_env init_world)
    as (w2 & Hrun & _ & Hm & _ & Hh & _).
  - split; [vm_compute; reflexivity|]. intros p. reflexivity.
  - exists w2. split; [exact Hrun|]. split.
    + rewrite Hm. vm_compute. reflexivity.
    + rewrite Hh. vm_compute. reflexivity.
Defined.

Lemma load_config_fills_in_missing_defaults_witness :
  exists st',
    Startup.load_config existing_repo_backend "backup_config.json"
      (Startup.start remote_only_docs)
    = (Startup.Returns
         (Startup.JDict
            (remote_only_items
             ++ List.filter
                  (fun kv => negb (Startup.has_key kv.1 remote_only_items))
                  Startup.default_items)), st')
    /\ Startup.docs st' = remote_only_docs
    /\ Startup.stdout st' = []
    /\ Startup.calls st'
       = [Startup.CallExists "backup_config.json";
          Startup.CallLoad "backup_config.json"].
Proof.
  apply (load_config_fills_in_missing_defaults existing_repo_backend
           "backup_config.json" remote_only_items
           (Startup.start remote_only_docs)).
  vm_compute. reflexivity.
Defined.


Lemma load_config_again_returns_the_same_witness :
  exists st'',
    Startup.load_config existing_repo_backend "backup_config.json"
      (Startup.load_config existing_repo_backend "backup_config.json"
         (Startup.start ∅)).2
    = (Startup.Returns (Startup.JDict Startup.default_items), st'')
    /\ Startup.docs st''
       = Startup.docs
           (Startup.load_config existing_repo_backend "backup_config.json"
              (Startup.start ∅)).2.
Proof.
  apply (load_config_again_returns_the_same existing_repo_backend
           "backup_config.json" (Startup.start ∅)).
  vm_compute. reflexivity.
Defined.

Lemma init_git_repo_creates_only_after_invalid_repository_witness :
  exists st',
    Startup.init_git_repo existing_repo_backend remote_config
      (Startup.start ∅)
    = (Startup.Returns tt, st')
    /\ Startup.calls st' = [Startup.CallRepo "./backup_repo"]
    /\ Startup.origin st' = None
    /\ Startup.repo st' = Some "./backup_repo"%string.
Proof.
  apply (init_git_repo_creates_only_after_invalid_repository
           existing_repo_backend remote_config (Startup.start ∅)).
  intros msg. discriminate.
Defined.

Lemma failed_remote_registration_is_not_raised_witness :
  exists st',
    Startup.init_git_repo fresh_repo_backend remote_config (Startup.start ∅)
    = (Startup.Returns tt, st')
    /\ Startup.repo st' = Some "./backup_repo"%string
    /\ Startup.origin st' = None.
Proof.
  apply (failed_remote_registration_is_not_raised fresh_repo_backend
           remote_config (Startup.start ∅) "./backup_repo");
    reflexivity.
Defined.
